(** * Sports-Store pipeline: the star-schema transformation

    A shallow embedding of [dags/src/transformation_task.py].  A pandas
    DataFrame is a list of rows in index order; the pandas operations the
    task uses ([drop_duplicates], [merge(how='left')], [reset_index] followed
    by [index + 1]) are list functions; the body of [transform_data] is a
    computation in a small state-and-exception monad over the log, the
    destination store and the engine handle. *)

From Stdlib Require Import Ascii String.
From stdpp Require Import base decidable option list list_numbers numbers strings gmap.

Open Scope Z_scope.

#[local] Set Warnings "-clear-no-such-hyp".

(** ** Cells

    A cell of a DataFrame.  [NA] is pandas' missing value (None / NaN / NaT).
    A float is carried by its binary64 bit pattern: the task never computes
    on one.  [drop_duplicates] and [merge] both treat two missing values as
    equal, which is what the derived equality on [cell] does. *)

Inductive cell : Type :=
  | NA
  | Str (s : string)
  | Int (z : Z)
  | Flt (bits : Z)
  | Date (d : Z).

#[global] Instance cell_eq_dec : EqDecision cell.
Proof. solve_decision. Defined.

(** ** The pandas operations used by the task *)

Module Frame.

Section ops.
Context {A K : Type} `{!EqDecision K}.

(** [DataFrame.drop_duplicates(subset=key)] with the default
    [keep='first']: a row is dropped when its key was seen in an earlier
    row; the remaining rows keep their order. *)
Fixpoint drop_duplicates_from (key : A → K) (seen : list K) (df : list A) : list A :=
  match df with
  | [] => []
  | x :: rest =>
      if decide (key x ∈ seen) then drop_duplicates_from key seen rest
      else x :: drop_duplicates_from key (key x :: seen) rest
  end.

Definition drop_duplicates (key : A → K) (df : list A) : list A :=
  drop_duplicates_from key [] df.

(** [left.merge(right, left_on=.., right_on=.., how='left')]: rows of
    [left] in order; a left row is paired with every right row of equal key,
    in the order of [right]; a left row without a match is kept once, with
    the right columns missing. *)
Definition matches {R} (right_on : R → K) (k : K) (right : list R) : list R :=
  filter (λ r, right_on r = k) right.

Definition merge_row {R} (right_on : R → K) (right : list R) (k : K) (l : A)
  : list (A * option R) :=
  match matches right_on k right with
  | [] => [(l, None)]
  | ms => (λ r, (l, Some r)) <$> ms
  end.

Definition merge_left {R} (left_on : A → K) (right_on : R → K)
    (left : list A) (right : list R) : list (A * option R) :=
  left ≫= λ l, merge_row right_on right (left_on l) l.

(** The lookup of a left row resolves when exactly one row of [right] has
    its key. *)
Definition resolves {R} (left_on : A → K) (right_on : R → K) (right : list R)
    (l : A) : Prop :=
  length (matches right_on (left_on l) right) = 1%nat.
End ops.

(** [df.reset_index(drop=True)] followed by [df[id] = df.index + 1]: the row
    at position [i] (from 0) gets the identifier [i + 1]. *)
Definition index_plus_one {A B} (mk : Z → A → B) (df : list A) : list B :=
  imap (λ i x, mk (Z.of_nat i + 1) x) df.

End Frame.

Import Frame.

(** ** The input: one row of [raw.sales_raw] after the renaming of columns *)

Record row : Type := Row {
  retailer : cell;
  retailer_id : cell;
  invoice_date : cell;
  region : cell;
  state : cell;
  city : cell;
  product : cell;
  price_per_unit : cell;
  units_sold : cell;
  total_sales : cell;
  operating_profit : cell;
  operating_margin : cell;
  sales_method : cell
}.

(** ** The output tables *)

Record retailer_row : Type := RetailerRow {
  rt_retailer_id : cell;
  rt_retailer_name : cell
}.

Record region_row : Type := RegionRow {
  rg_region_name : cell;
  rg_region_id : Z
}.

(** An identifier that comes out of a left merge is missing (NaN) when the
    left row had no match; hence [option Z] for the referencing columns. *)
Record state_row : Type := StateRow {
  st_state_name : cell;
  st_region_id : option Z;
  st_state_id : Z
}.

Record city_row : Type := CityRow {
  ct_city_name : cell;
  ct_state_id : option Z;
  ct_city_id : Z
}.

Record product_row : Type := ProductRow {
  pr_product_name : cell;
  pr_price_per_unit : cell;
  pr_product_id : Z
}.

Record sales_method_row : Type := SalesMethodRow {
  sm_method_name : cell;
  sm_sales_method_id : Z
}.

Record fact_row : Type := FactRow {
  transaction_id : Z;
  f_retailer_id : cell;
  f_invoice_date : cell;
  f_city_id : option Z;
  f_product_id : option Z;
  f_units_sold : cell;
  f_total_sales : cell;
  f_operating_profit : cell;
  f_operating_margin : cell;
  f_sales_method_id : option Z;
  f_region_id : option Z
}.

#[global] Instance row_eq_dec : EqDecision row.
Proof. solve_decision. Defined.
#[global] Instance retailer_row_eq_dec : EqDecision retailer_row.
Proof. solve_decision. Defined.
#[global] Instance region_row_eq_dec : EqDecision region_row.
Proof. solve_decision. Defined.
#[global] Instance state_row_eq_dec : EqDecision state_row.
Proof. solve_decision. Defined.
#[global] Instance city_row_eq_dec : EqDecision city_row.
Proof. solve_decision. Defined.
#[global] Instance product_row_eq_dec : EqDecision product_row.
Proof. solve_decision. Defined.
#[global] Instance sales_method_row_eq_dec : EqDecision sales_method_row.
Proof. solve_decision. Defined.
#[global] Instance fact_row_eq_dec : EqDecision fact_row.
Proof. solve_decision. Defined.

(** ** 2. Normalization: the dimension tables *)

(** A. [df[['retailer_id', 'retailer']].drop_duplicates()], then
    [retailer] renamed to [retailer_name]. *)
Definition dim_retailer (df : list row) : list retailer_row :=
  (λ p, RetailerRow p.1 p.2)
    <$> drop_duplicates id ((λ r, (retailer_id r, retailer r)) <$> df).

(** B. [df[['region']].drop_duplicates().reset_index(drop=True)];
    [region_id = index + 1]. *)
Definition dim_region (df : list row) : list region_row :=
  index_plus_one (λ i name, RegionRow name i) (drop_duplicates id (region <$> df)).

(** C. [df[['state', 'region']].drop_duplicates()] left-merged with
    [dim_region] on [region = region_name]; then
    [[['state', 'region_id']].drop_duplicates().reset_index(drop=True)];
    [state_id = index + 1]. *)
Definition df_state_prep (df : list row) : list ((cell * cell) * option region_row) :=
  merge_left snd rg_region_name
    (drop_duplicates id ((λ r, (state r, region r)) <$> df))
    (dim_region df).

Definition dim_state (df : list row) : list state_row :=
  index_plus_one (λ i p, StateRow p.1 p.2 i)
    (drop_duplicates id
       ((λ p : (cell * cell) * option region_row, (p.1.1, rg_region_id <$> p.2))
          <$> df_state_prep df)).

(** D. [df[['city', 'state']].drop_duplicates()] left-merged with [dim_state]
    on [state = state_name]; then
    [[['city', 'state_id']].drop_duplicates().reset_index(drop=True)];
    [city_id = index + 1]. *)
Definition df_city_prep (df : list row) : list ((cell * cell) * option state_row) :=
  merge_left snd st_state_name
    (drop_duplicates id ((λ r, (city r, state r)) <$> df))
    (dim_state df).

Definition dim_city (df : list row) : list city_row :=
  index_plus_one (λ i p, CityRow p.1 p.2 i)
    (drop_duplicates id
       ((λ p : (cell * cell) * option state_row, (p.1.1, st_state_id <$> p.2))
          <$> df_city_prep df)).

(** E. [df[['product', 'price_per_unit']].drop_duplicates(subset=['product'])
    .reset_index(drop=True)]; [product_id = index + 1]. *)
Definition dim_product (df : list row) : list product_row :=
  index_plus_one (λ i p, ProductRow p.1 p.2 i)
    (drop_duplicates fst ((λ r, (product r, price_per_unit r)) <$> df)).

(** F. [df[['sales_method']].drop_duplicates().reset_index(drop=True)];
    [sales_method_id = index + 1]. *)
Definition dim_sales_method (df : list row) : list sales_method_row :=
  index_plus_one (λ i name, SalesMethodRow name i)
    (drop_duplicates id (sales_method <$> df)).

(** ** G. The fact table

    The four left merges of lines 112-119, as a function of the frame and of
    the dimension tables they read.  A merged row is the left row paired with
    the matched right row, if any. *)
Definition joined : Type :=
  (((row * option state_row) * option city_row) * option product_row)
  * option sales_method_row.

Definition city_left_on (p : row * option state_row) : cell * option Z :=
  (city p.1, st_state_id <$> p.2).

Definition city_right_on (c : city_row) : cell * option Z :=
  (ct_city_name c, ct_state_id c).

Definition product_left_on (p : (row * option state_row) * option city_row) : cell :=
  product p.1.1.

Definition sales_method_left_on
    (p : ((row * option state_row) * option city_row) * option product_row) : cell :=
  sales_method p.1.1.1.

Definition merge_state (df : list row) (dstate : list state_row)
  : list (row * option state_row) :=
  merge_left state st_state_name df dstate.

Definition merge_city (fact : list (row * option state_row)) (dcity : list city_row)
  : list ((row * option state_row) * option city_row) :=
  merge_left city_left_on city_right_on fact dcity.

Definition merge_product
    (fact : list ((row * option state_row) * option city_row))
    (dproduct : list product_row)
  : list (((row * option state_row) * option city_row) * option product_row) :=
  merge_left product_left_on pr_product_name fact dproduct.

Definition merge_sales_method
    (fact : list (((row * option state_row) * option city_row) * option product_row))
    (dmethod : list sales_method_row) : list joined :=
  merge_left sales_method_left_on sm_method_name fact dmethod.

Definition fact_df (df : list row) (dstate : list state_row) (dcity : list city_row)
    (dproduct : list product_row) (dmethod : list sales_method_row) : list joined :=
  merge_sales_method
    (merge_product (merge_city (merge_state df dstate) dcity) dproduct) dmethod.

(** The selection of the fact columns and [transaction_id = index + 1]. *)
Definition select_fact (i : Z) (j : joined) : fact_row :=
  let '((((r, s), c), p), m) := j in
  {| transaction_id := i;
     f_retailer_id := retailer_id r;
     f_invoice_date := invoice_date r;
     f_city_id := ct_city_id <$> c;
     f_product_id := pr_product_id <$> p;
     f_units_sold := units_sold r;
     f_total_sales := total_sales r;
     f_operating_profit := operating_profit r;
     f_operating_margin := operating_margin r;
     f_sales_method_id := sm_sales_method_id <$> m;
     f_region_id := s ≫= st_region_id |}.

Definition fact_table_of (fact : list joined) : list fact_row :=
  index_plus_one select_fact fact.

Definition fact_table (df : list row) : list fact_row :=
  fact_table_of
    (fact_df df (dim_state df) (dim_city df) (dim_product df) (dim_sales_method df)).

(** The input row a joined row was made from. *)
Definition source (j : joined) : row := j.1.1.1.1.

(** The columns the fact table copies from the input. *)
Definition measures (r : row) : cell * cell * cell * cell * cell * cell :=
  (retailer_id r, invoice_date r, units_sold r, total_sales r,
   operating_profit r, operating_margin r).

Definition fact_measures (f : fact_row) : cell * cell * cell * cell * cell * cell :=
  (f_retailer_id f, f_invoice_date f, f_units_sold f, f_total_sales f,
   f_operating_profit f, f_operating_margin f).

(** No lookup of the fact build is unresolved: in each of the four merges
    every left row finds exactly one row of the dimension. *)
Definition zero_unresolved (df : list row) : Prop :=
  let by_state := merge_state df (dim_state df) in
  let by_city := merge_city by_state (dim_city df) in
  let by_product := merge_product by_city (dim_product df) in
  Forall (resolves state st_state_name (dim_state df)) df
  ∧ Forall (resolves city_left_on city_right_on (dim_city df)) by_state
  ∧ Forall (resolves product_left_on pr_product_name (dim_product df)) by_city
  ∧ Forall (resolves sales_method_left_on sm_method_name (dim_sales_method df))
      by_product.

(** Every state name of the frame belongs to one region. *)
Definition state_scoped (df : list row) : Prop :=
  ∀ r1 r2, r1 ∈ df → r2 ∈ df → state r1 = state r2 → region r1 = region r2.

(** ** Sample frames *)

Definition sale (rname rid rgn st cty prod : string) (price units : Z) (meth : string) : row :=
  {| retailer := Str rname; retailer_id := Str rid; invoice_date := Date 0;
     region := Str rgn; state := Str st; city := Str cty; product := Str prod;
     price_per_unit := Int price; units_sold := Int units;
     total_sales := Int (price * units); operating_profit := Int 0;
     operating_margin := Flt 0; sales_method := Str meth |}.

Definition example_df : list row :=
  [ sale "Retailer A" "1" "East" "NY" "NYC" "Shoes" 50 10 "Online";
    sale "Retailer A" "1" "East" "NY" "NYC" "Hats" 20 5 "Online";
    sale "Retailer B" "2" "West" "CA" "LA" "Shoes" 50 8 "Outlet" ].

(** Two regions that each contain a state named Springfield. *)
Definition twin_df : list row :=
  [ sale "Retailer A" "1" "East" "Springfield" "Alton" "Shoes" 50 10 "Online";
    sale "Retailer B" "2" "West" "Springfield" "Salem" "Hats" 20 5 "Outlet" ].

(** ** The task around the transformation

    Exceptions.  Every exception the task can meet is an instance of
    Python's [Exception]; [SQLAlchemyError] is the class the first handler
    names.  Interpreter-level exits (KeyboardInterrupt, SystemExit) are not
    modelled. *)

Inductive exn : Type :=
  | SQLAlchemyError (msg : string)
  | KeyError (missing : list string)
  | OtherException (msg : string).

Definition is_SQLAlchemyError (e : exn) : bool :=
  match e with SQLAlchemyError _ => true | _ => false end.

Definition is_Exception (e : exn) : bool := true.

(** The log.  One constructor of [message] per format string of the task. *)
Inductive level : Type := INFO | WARNING | ERROR.

Inductive message : Type :=
  | Establishing_connection
  | Connection_successful
  | Reading_raw
  | Data_read (rows cols : nat)
  | Date_transformed
  | Normalization_complete
  | Loading_table (table_name : string) (rows : nat)
  | All_tables_loaded
  | Database_error (e : exn)
  | Unexpected_error (e : exn).

Record log_record : Type := LogRecord { levelname : level; msg : message }.

#[global] Instance exn_eq_dec : EqDecision exn.
Proof. solve_decision. Defined.
#[global] Instance level_eq_dec : EqDecision level.
Proof. solve_decision. Defined.
#[global] Instance message_eq_dec : EqDecision message.
Proof. solve_decision. Defined.
#[global] Instance log_record_eq_dec : EqDecision log_record.
Proof. solve_decision. Defined.

(** The frame as [pd.read_sql_table] returns it: named columns over a common
    index of [nrows] positions. *)
Record dataframe : Type := DataFrame {
  nrows : nat;
  columns : list (string * list cell)
}.

(** *** 1. Initial cleaning and standardization *)

Definition rename_map : gmap string string :=
  list_to_map
    [ ("Retailer", "retailer");
      ("Retailer ID", "retailer_id");
      ("Invoice Date", "invoice_date");
      ("Region", "region");
      ("State", "state");
      ("City", "city");
      ("Product", "product");
      ("Price per Unit", "price_per_unit");
      ("Units Sold", "units_sold");
      ("Total Sales", "total_sales");
      ("Operating Proft", "operating_profit");
      ("Operating Margin", "operating_margin");
      ("Sales Method", "sales_method") ]%string.

(** [df.rename(columns=rename_map)]: a column the map does not mention keeps
    its name. *)
Definition rename (m : gmap string string) (df : dataframe) : dataframe :=
  {| nrows := nrows df;
     columns := (λ c : string * list cell, (default c.1 (m !! c.1), c.2)) <$> columns df |}.

(** [str.strip], [str.lower] and [str.replace(" ", "_")] on ASCII text. *)
Definition is_space (a : ascii) : bool :=
  let n := nat_of_ascii a in
  ((9 <=? n)%nat && (n <=? 13)%nat) || ((28 <=? n)%nat && (n <=? 32)%nat).

Fixpoint lstrip (s : string) : string :=
  match s with
  | EmptyString => EmptyString
  | String a t => if is_space a then lstrip t else s
  end.

Fixpoint rstrip (s : string) : string :=
  match s with
  | EmptyString => EmptyString
  | String a t =>
      match rstrip t with
      | EmptyString => if is_space a then EmptyString else String a EmptyString
      | t' => String a t'
      end
  end.

Definition strip (s : string) : string := rstrip (lstrip s).

Definition lower_char (a : ascii) : ascii :=
  let n := nat_of_ascii a in
  if ((65 <=? n)%nat && (n <=? 90)%nat) then ascii_of_nat (n + 32) else a.

Fixpoint map_chars (f : ascii → ascii) (s : string) : string :=
  match s with
  | EmptyString => EmptyString
  | String a t => String (f a) (map_chars f t)
  end.

Definition lower (s : string) : string := map_chars lower_char s.

Definition replace_space (s : string) : string :=
  map_chars (λ a, if Ascii.eqb a " "%char then "_"%char else a) s.

(** [df.columns = [c.strip().lower().replace(" ", "_") for c in df.columns]] *)
Definition normalize_columns (df : dataframe) : dataframe :=
  {| nrows := nrows df;
     columns := (λ c : string * list cell, (replace_space (lower (strip c.1)), c.2))
                  <$> columns df |}.

(** [df[name]]: the column of that name, if there is one.  A frame with
    two columns of one name after the normalization is not modelled: the
    first is taken. *)
Definition column (df : dataframe) (name : string) : option (list cell) :=
  (λ found : nat * (string * list cell), found.2.2)
    <$> list_find (λ c : string * list cell, c.1 = name) (columns df).

(** [df[name] = values] for a column that exists. *)
Definition set_column (df : dataframe) (name : string) (values : list cell) : dataframe :=
  {| nrows := nrows df;
     columns := (λ c : string * list cell, if decide (c.1 = name) then (c.1, values) else c)
                  <$> columns df |}.

(** The names among [names] that [df] has no column for. *)
Definition missing_columns (df : dataframe) (names : list string) : list string :=
  filter (λ name, column df name = None) names.

(** The rows of the frame over the thirteen columns the task reads.  Every
    read of a column below is guarded by the selection that raises [KeyError]
    when the column is absent. *)
Definition cell_at (df : dataframe) (name : string) (i : nat) : cell :=
  default NA (column df name ≫= λ values, values !! i).

Definition records (df : dataframe) : list row :=
  (λ i,
     {| retailer := cell_at df "retailer" i;
        retailer_id := cell_at df "retailer_id" i;
        invoice_date := cell_at df "invoice_date" i;
        region := cell_at df "region" i;
        state := cell_at df "state" i;
        city := cell_at df "city" i;
        product := cell_at df "product" i;
        price_per_unit := cell_at df "price_per_unit" i;
        units_sold := cell_at df "units_sold" i;
        total_sales := cell_at df "total_sales" i;
        operating_profit := cell_at df "operating_profit" i;
        operating_margin := cell_at df "operating_margin" i;
        sales_method := cell_at df "sales_method" i |})
  <$> seq 0 (nrows df).

(** *** 3. Loading *)

Module Sql.
Inductive type : Type := Integer | String | Float | Date.
End Sql.

Inductive table : Type :=
  | Retailers (rows : list retailer_row)
  | Regions (rows : list region_row)
  | States (rows : list state_row)
  | Cities (rows : list city_row)
  | Products (rows : list product_row)
  | Sales_methods (rows : list sales_method_row)
  | Sales_transactions (rows : list fact_row).

Definition table_len (t : table) : nat :=
  match t with
  | Retailers rows => length rows
  | Regions rows => length rows
  | States rows => length rows
  | Cities rows => length rows
  | Products rows => length rows
  | Sales_methods rows => length rows
  | Sales_transactions rows => length rows
  end.

(** What the task cannot decide by itself: whether the engine can be created
    and connected, what the raw table holds, what [pd.to_datetime] (a
    function of pandas, taken as a parameter) makes of the date column, and
    whether a write is accepted.  [None] for an operation without result
    means that it succeeded. *)
Record world : Type := World {
  create_engine : option exn;
  connect : option exn;
  read_sql_table : exn + dataframe;
  to_datetime : list cell → exn + list cell;
  to_sql : string → table → list (string * Sql.type) → option exn
}.

Inductive engine_state : Type := Open | Disposed.

(** The state the task acts on: the log file, the tables of schema
    [processed], and the local variable [engine] ([None] in Python until
    [create_engine] returns). *)
Record task_state : Type := TaskState {
  log : list log_record;
  processed : gmap string table;
  engine : option engine_state
}.

Definition M (A : Type) : Type := task_state → (exn + A) * task_state.

#[global] Instance M_ret : MRet M := λ A x s, (inr x, s).
#[global] Instance M_bind : MBind M := λ A B f m s,
  match m s with
  | (inl e, s') => (inl e, s')
  | (inr x, s') => f x s'
  end.

Definition raise {A} (e : exn) : M A := λ s, (inl e, s).

Definition lift {A} (r : exn + A) : M A := λ s, (r, s).

Definition check (r : option exn) : M unit :=
  match r with Some e => raise e | None => mret () end.

Definition logger (lv : level) (m : message) : M unit := λ s,
  (inr (), {| log := log s ++ [LogRecord lv m]; processed := processed s; engine := engine s |}).

Definition logger_info : message → M unit := logger INFO.
Definition logger_error : message → M unit := logger ERROR.

Definition set_engine (e : option engine_state) : M unit := λ s,
  (inr (), {| log := log s; processed := processed s; engine := e |}).

(** [if_exists='replace']: an accepted write supersedes the table of that
    name; a refused one raises and leaves the store as it was. *)
Definition replace_table (name : string) (t : table) : M unit := λ s,
  (inr (), {| log := log s; processed := <[name := t]> (processed s); engine := engine s |}).

Definition load_table (w : world) (t : table) (table_name : string)
    (dtypes : list (string * Sql.type)) : M unit :=
  logger_info (Loading_table table_name (table_len t)) ;;
  check (to_sql w table_name t dtypes) ;;
  replace_table table_name t.

(** Code that raises or returns without touching the state. *)
#[global] Instance raising_ret : MRet (sum exn) := λ A x, inr x.
#[global] Instance raising_bind : MBind (sum exn) := λ A B f m,
  match m with
  | inl e => inl e
  | inr x => f x
  end.

(** [df[[names]]]: raises [KeyError] when a name is absent. *)
Definition select (df : dataframe) (names : list string) : exn + unit :=
  match missing_columns df names with
  | [] => inr ()
  | missing => inl (KeyError missing)
  end.

Definition getitem (df : dataframe) (name : string) : exn + list cell :=
  match column df name with
  | Some values => inr values
  | None => inl (KeyError [name])
  end.

Definition fact_dtypes : list (string * Sql.type) :=
  [ ("transaction_id", Sql.Integer);
    ("retailer_id", Sql.String);
    ("invoice_date", Sql.Date);
    ("city_id", Sql.Integer);
    ("product_id", Sql.Integer);
    ("units_sold", Sql.Integer);
    ("total_sales", Sql.Integer);
    ("operating_profit", Sql.Integer);
    ("operating_margin", Sql.Float);
    ("sales_method_id", Sql.Integer);
    ("region_id", Sql.Integer) ]%string.

(** The tables of one run. *)
Record star_schema : Type := StarSchema {
  retailer_table : list retailer_row;
  region_table : list region_row;
  state_table : list state_row;
  city_table : list city_row;
  product_table : list product_row;
  sales_method_table : list sales_method_row;
  sales_transaction_table : list fact_row
}.

(** Section 2 of the task as a function of the rows. *)
Definition transform (rows : list row) : star_schema :=
  {| retailer_table := dim_retailer rows;
     region_table := dim_region rows;
     state_table := dim_state rows;
     city_table := dim_city rows;
     product_table := dim_product rows;
     sales_method_table := dim_sales_method rows;
     sales_transaction_table := fact_table rows |}.

(** The [try] block of [transform_data], in the four stages its comments
    name.  Lines 33-43: connect and read. *)
Definition read_raw (w : world) : M dataframe :=
  logger_info Establishing_connection ;;
  check (create_engine w) ;;
  set_engine (Some Open) ;;
  check (connect w) ;;
  logger_info Connection_successful ;;
  logger_info Reading_raw ;;
  df ← lift (read_sql_table w) ;
  logger_info (Data_read (nrows df) (length (columns df))) ;;
  mret df.

(** Lines 46-66: column names and the date column. *)
Definition clean (w : world) (df : dataframe) : M dataframe :=
  let df := normalize_columns (rename rename_map df) in
  dates ← lift (getitem df "invoice_date") ;
  dates ← lift (to_datetime w dates) ;
  let df := set_column df "invoice_date" dates in
  logger_info Date_transformed ;;
  mret df.

(** Lines 72-144: each table is computed after the selection of the columns
    it reads; the merges of the fact table read columns selected before, and
    its last selection adds the identifiers the merges have made.  Nothing
    here logs or writes.  The frame is taken to have no column that bears
    the name of a derived one ([region_id], [state_name], ...). *)
Definition normalize (df : dataframe) : exn + star_schema :=
  let rows := records df in
  select df ["retailer_id"; "retailer"]%string ;;
  let retailers := dim_retailer rows in
  select df ["region"]%string ;;
  let regions := dim_region rows in
  select df ["state"; "region"]%string ;;
  let states := dim_state rows in
  select df ["city"; "state"]%string ;;
  let cities := dim_city rows in
  select df ["product"; "price_per_unit"]%string ;;
  let products := dim_product rows in
  select df ["sales_method"]%string ;;
  let methods := dim_sales_method rows in
  let fact := fact_df rows states cities products methods in
  select df ["retailer_id"; "invoice_date"; "units_sold"; "total_sales";
             "operating_profit"; "operating_margin"]%string ;;
  mret {| retailer_table := retailers;
          region_table := regions;
          state_table := states;
          city_table := cities;
          product_table := products;
          sales_method_table := methods;
          sales_transaction_table := fact_table_of fact |}.

(** Lines 149-189: the seven writes, dimensions first. *)
Definition load (w : world) (t : star_schema) : M unit :=
  load_table w (Retailers (retailer_table t)) "retailer"
    [("retailer_id", Sql.String); ("retailer_name", Sql.String)]%string ;;
  load_table w (Regions (region_table t)) "region"
    [("region_id", Sql.Integer); ("region_name", Sql.String)]%string ;;
  load_table w (States (state_table t)) "state"
    [("state_id", Sql.Integer); ("state_name", Sql.String);
     ("region_id", Sql.Integer)]%string ;;
  load_table w (Cities (city_table t)) "city"
    [("city_id", Sql.Integer); ("city_name", Sql.String);
     ("state_id", Sql.Integer)]%string ;;
  load_table w (Products (product_table t)) "product"
    [("product_id", Sql.Integer); ("product_name", Sql.String);
     ("price_per_unit", Sql.Integer)]%string ;;
  load_table w (Sales_methods (sales_method_table t)) "sales_method"
    [("sales_method_id", Sql.Integer); ("method_name", Sql.String)]%string ;;
  load_table w (Sales_transactions (sales_transaction_table t)) "sales_transaction"
    fact_dtypes ;;
  logger_info All_tables_loaded.

Definition try_block (w : world) : M unit :=
  df ← read_raw w ;
  df ← clean w df ;
  t ← lift (normalize df) ;
  logger_info Normalization_complete ;;
  load w t.

(** [try: body except C1 as e: h1(e) except C2 as e: h2(e) finally: fin].
    The first clause whose class the exception is an instance of handles it;
    an exception no clause handles, or one a handler raises, is raised again
    after [fin] has run. *)
Fixpoint handle (clauses : list ((exn → bool) * (exn → M unit))) (e : exn) : M unit :=
  match clauses with
  | [] => raise e
  | (is_instance, handler) :: rest =>
      if is_instance e then handler e else handle rest e
  end.

Definition try_except_finally (body : M unit)
    (clauses : list ((exn → bool) * (exn → M unit))) (fin : M unit) : M unit := λ s,
  let '(r, s1) :=
    match body s with
    | (inl e, s') => handle clauses e s'
    | (inr x, s') => (inr x, s')
    end in
  match fin s1 with
  | (inl e, s2) => (inl e, s2)
  | (inr _, s2) => (r, s2)
  end.

(** [if engine: engine.dispose()] *)
Definition dispose_engine : M unit := λ s,
  match engine s with
  | Some _ => set_engine (Some Disposed) s
  | None => (inr (), s)
  end.

(** [transform_data()].  The result [inr ()] is the normal return (of
    [None]); [inl e] is an exception that leaves the function. *)
Definition transform_data (w : world) : M unit :=
  set_engine None ;;
  try_except_finally (try_block w)
    [ (is_SQLAlchemyError, λ e, logger_error (Database_error e));
      (is_Exception, λ e, logger_error (Unexpected_error e)) ]
    dispose_engine.

(** A frame as [load_task] stores it, built from rows. *)
Definition raw_frame (rows : list row) : dataframe :=
  {| nrows := length rows;
     columns :=
       [ ("Retailer", retailer <$> rows);
         ("Retailer ID", retailer_id <$> rows);
         ("Invoice Date", invoice_date <$> rows);
         ("Region", region <$> rows);
         ("State", state <$> rows);
         ("City", city <$> rows);
         ("Product", product <$> rows);
         ("Price per Unit", price_per_unit <$> rows);
         ("Units Sold", units_sold <$> rows);
         ("Total Sales", total_sales <$> rows);
         ("Operating Proft", operating_profit <$> rows);
         ("Operating Margin", operating_margin <$> rows);
         ("Sales Method", sales_method <$> rows) ]%string |}.

(** A world in which everything succeeds: dates are already dates. *)
Definition fair_world (df : dataframe) : world :=
  {| create_engine := None;
     connect := None;
     read_sql_table := inr df;
     to_datetime := λ values, inr values;
     to_sql := λ _ _ _, None |}.

Definition initial_state : task_state :=
  {| log := []; processed := ∅; engine := None |}.

(** The same product at two prices. *)
Definition conflict_df : list row :=
  [ sale "Retailer A" "1" "East" "NY" "NYC" "Shoes" 50 10 "Online";
    sale "Retailer A" "1" "East" "NY" "NYC" "Shoes" 55 4 "Online" ].

(** The same retailer identifier under two retailer names. *)
Definition two_names_df : list row :=
  [ sale "Foot Locker" "1185732" "East" "NY" "NYC" "Shoes" 50 10 "Online";
    sale "Walmart" "1185732" "West" "CA" "LA" "Hats" 20 5 "Outlet" ].

(** A row whose retailer identifier is missing. *)
Definition anonymous_df : list row :=
  [ {| retailer := Str "Retailer A"; retailer_id := NA; invoice_date := Date 0;
       region := Str "East"; state := Str "NY"; city := Str "NYC";
       product := Str "Shoes"; price_per_unit := Int 50; units_sold := Int 10;
       total_sales := Int 500; operating_profit := Int 0;
       operating_margin := Flt 0; sales_method := Str "Online" |} ].

(** The raw table of [example_df] without its Region column. *)
Definition no_region_frame : dataframe :=
  {| nrows := 3;
     columns := filter (λ c : string * list cell, c.1 ≠ "Region"%string)
                  (columns (raw_frame example_df)) |}.


(** ** Notions used in the statements *)

(** The thirteen columns the task reads. *)
Definition required_columns : list string :=
  [ "retailer"; "retailer_id"; "invoice_date"; "region"; "state"; "city";
    "product"; "price_per_unit"; "units_sold"; "total_sales";
    "operating_profit"; "operating_margin"; "sales_method" ]%string.

(** A sequence of accepted writes, applied to the store. *)
Definition apply_writes (ws : list (string * table)) (store : gmap string table)
  : gmap string table :=
  foldl (λ m p, <[p.1 := p.2]> m) store ws.

(** The effect of a computation that never reads the state: what it
    returns, the records it appends to the log (none of them a warning), the
    writes it makes, and the value it assigns to [engine], if it does. *)
Definition effect {A} (m : M A) (r : exn + A) (l : list log_record)
    (ws : list (string * table)) (eng : option (option engine_state)) : Prop :=
  (∀ s, m s = (r, {| log := log s ++ l;
                     processed := apply_writes ws (processed s);
                     engine := default (engine s) eng |}))
  ∧ Forall (λ x, levelname x ≠ WARNING) l.

(** A step that neither writes nor assigns [engine]. *)
Definition silent {A} (m : M A) : Prop := ∃ r l, effect m r l [] None.

(** The value of [engine] when the [try] block is left. *)
Definition engine_after (w : world) : option (option engine_state) :=
  match create_engine w with
  | None => Some (Some Open)
  | Some _ => None
  end.

(** The record a handler of [transform_data] logs for an exception. *)
Definition error_record (e : exn) : log_record :=
  LogRecord ERROR (if is_SQLAlchemyError e then Database_error e else Unexpected_error e).

(** The state in which the [try] block of [transform_data] starts. *)
Definition enter (s : task_state) : task_state :=
  {| log := log s; processed := processed s; engine := None |}.


(** The frame the tables are computed from, when the dates convert. *)
Definition cleaned (df : dataframe) (dates : list cell) : dataframe :=
  set_column (normalize_columns (rename rename_map df)) "invoice_date" dates.

(** The writes of a run in which every write is accepted. *)
Definition tables_of (t : star_schema) : list (string * table) :=
  [ ("retailer", Retailers (retailer_table t));
    ("region", Regions (region_table t));
    ("state", States (state_table t));
    ("city", Cities (city_table t));
    ("product", Products (product_table t));
    ("sales_method", Sales_methods (sales_method_table t));
    ("sales_transaction", Sales_transactions (sales_transaction_table t)) ]%string.

(** A world in which the raw table cannot be read. *)
Definition unreadable_world : world :=
  {| create_engine := None;
     connect := None;
     read_sql_table := inl (SQLAlchemyError "relation raw.sales_raw does not exist");
     to_datetime := λ values, inr values;
     to_sql := λ _ _ _, None |}.

(** A world in which the write of the city table is refused. *)
Definition refusing_world (df : dataframe) : world :=
  {| create_engine := None;
     connect := None;
     read_sql_table := inr df;
     to_datetime := λ values, inr values;
     to_sql := λ name _ _,
       if decide (name = "city"%string) then Some (SQLAlchemyError "connection lost")
       else None |}.

(** ** The loading task

    [dags/src/load_task.py]: [load_data] copies the Excel file into the
    table [raw.sales_raw].  It has its own log file and its own engine. *)

Module Load.

(** One constructor per format string of [load_data]. *)
Inductive message : Type :=
  | File_not_found
  | Establishing_connection
  | Connection_successful
  | Reading_excel
  | File_read (rows cols : nat)
  | Starting_insertion
  | Successfully_loaded (rows : nat)
  | Database_error (e : exn)
  | Unexpected_error (e : exn).

Record log_record : Type := LogRecord { levelname : level; msg : message }.

(** What [load_data] cannot decide by itself: whether the file is there,
    whether the engine can be created and connected, what [pd.read_excel]
    returns, and whether the write of the raw table is accepted.  The write
    runs in one transaction: refused, it leaves the table as it was. *)
Record world : Type := World {
  file_exists : bool;
  create_engine : option exn;
  connect : option exn;
  read_excel : exn + dataframe;
  to_sql : dataframe → list (string * Sql.type) → option exn
}.

(** The log file of the loading task, the table [raw.sales_raw] (absent
    until a first load), and the local variable [engine]. *)
Record state : Type := State {
  log : list log_record;
  sales_raw : option dataframe;
  engine : option engine_state
}.

Definition M (A : Type) : Type := state → (exn + A) * state.

#[global] Instance M_ret : MRet M := λ A x s, (inr x, s).
#[global] Instance M_bind : MBind M := λ A B f m s,
  match m s with
  | (inl e, s') => (inl e, s')
  | (inr x, s') => f x s'
  end.

Definition raise {A} (e : exn) : M A := λ s, (inl e, s).

Definition lift {A} (r : exn + A) : M A := λ s, (r, s).

Definition check (r : option exn) : M unit :=
  match r with Some e => raise e | None => mret () end.

Definition logger (lv : level) (m : message) : M unit := λ s,
  (inr (), {| log := log s ++ [LogRecord lv m]; sales_raw := sales_raw s;
              engine := engine s |}).

Definition logger_info : message → M unit := logger INFO.
Definition logger_error : message → M unit := logger ERROR.

Definition set_engine (e : option engine_state) : M unit := λ s,
  (inr (), {| log := log s; sales_raw := sales_raw s; engine := e |}).

(** [if_exists='replace'] on [raw.sales_raw]. *)
Definition replace_raw (df : dataframe) : M unit := λ s,
  (inr (), {| log := log s; sales_raw := Some df; engine := engine s |}).

Definition dtype_mapping : list (string * Sql.type) :=
  [ ("Retailer", Sql.String);
    ("Retailer ID", Sql.String);
    ("Invoice Date", Sql.Date);
    ("Region", Sql.String);
    ("State", Sql.String);
    ("City", Sql.String);
    ("Product", Sql.String);
    ("Price per Unit", Sql.Integer);
    ("Units Sold", Sql.Integer);
    ("Total Sales", Sql.Integer);
    ("Operating Proft", Sql.Integer);
    ("Operating Margin", Sql.Float);
    ("Sales Method", Sql.String) ]%string.

(** The [try] block of [load_data]; [len(df)] is the number of rows. *)
Definition try_block (w : world) : M unit :=
  logger_info Establishing_connection ;;
  check (create_engine w) ;;
  set_engine (Some Open) ;;
  check (connect w) ;;
  logger_info Connection_successful ;;
  logger_info Reading_excel ;;
  df ← lift (read_excel w) ;
  logger_info (File_read (nrows df) (length (columns df))) ;;
  logger_info Starting_insertion ;;
  check (to_sql w df dtype_mapping) ;;
  replace_raw df ;;
  logger_info (Successfully_loaded (nrows df)).

Fixpoint handle (clauses : list ((exn → bool) * (exn → M unit))) (e : exn) : M unit :=
  match clauses with
  | [] => raise e
  | (is_instance, handler) :: rest =>
      if is_instance e then handler e else handle rest e
  end.

Definition try_except_finally (body : M unit)
    (clauses : list ((exn → bool) * (exn → M unit))) (fin : M unit) : M unit := λ s,
  let '(r, s1) :=
    match body s with
    | (inl e, s') => handle clauses e s'
    | (inr x, s') => (inr x, s')
    end in
  match fin s1 with
  | (inl e, s2) => (inl e, s2)
  | (inr _, s2) => (r, s2)
  end.

Definition dispose_engine : M unit := λ s,
  match engine s with
  | Some _ => set_engine (Some Disposed) s
  | None => (inr (), s)
  end.

(** [load_data()]: without the file, one error record and an early return,
    before [engine] is assigned. *)
Definition load_data (w : world) : M unit :=
  if negb (file_exists w) then logger_error File_not_found
  else
    set_engine None ;;
    try_except_finally (try_block w)
      [ (is_SQLAlchemyError, λ e, logger_error (Database_error e));
        (is_Exception, λ e, logger_error (Unexpected_error e)) ]
      dispose_engine.

(** The frame a call stores, if it stores one: the file is there, the engine
    is created and connects, the file is read and the write is accepted. *)
Definition loaded (w : world) : option dataframe :=
  if file_exists w then
    match create_engine w, connect w, read_excel w with
    | None, None, inr df =>
        match to_sql w df dtype_mapping with
        | None => Some df
        | Some _ => None
        end
    | _, _, _ => None
    end
  else None.

End Load.

(** ** The two tasks in the order of the DAG

    [dags/dag.py] runs [load_data] and then [transform_data]
    ([load_data_task >> transform_data_task]); the transformation reads the
    table the loading task writes.  [pd.read_sql_table] raises a
    [ValueError] when the table does not exist; the store is taken to return
    a table as it was stored. *)
Definition read_stored (raw : option dataframe) : exn + dataframe :=
  match raw with
  | Some df => inr df
  | None => inl (OtherException "Table sales_raw not found")
  end.

(** The world of the transformation over a given raw table. *)
Definition reading (raw : option dataframe) (w : world) : world :=
  {| create_engine := create_engine w;
     connect := connect w;
     read_sql_table := read_stored raw;
     to_datetime := to_datetime w;
     to_sql := to_sql w |}.

(** [load_data] and then [transform_data], each on its own state; the
    second runs when the first has returned. *)
Definition load_then_transform (lw : Load.world) (tw : world)
    (s : Load.state * task_state)
  : (exn + unit) * (Load.state * task_state) :=
  match Load.load_data lw s.1 with
  | (inl e, ls) => (inl e, (ls, s.2))
  | (inr _, ls) =>
      let '(r, ts) := transform_data (reading (Load.sales_raw ls) tw) s.2 in
      (r, (ls, ts))
  end.


(** A loading world without the file. *)
Definition no_file : Load.world :=
  {| Load.file_exists := false;
     Load.create_engine := None;
     Load.connect := None;
     Load.read_excel := inl (OtherException "No such file or directory");
     Load.to_sql := λ _ _, None |}.


(** A raw table with the thirteen columns and no row. *)
Definition empty_frame : dataframe := raw_frame [].

(** * Properties *)

(** ** Facts about the frame operations *)

Section drop_duplicates_facts.
Context {A K : Type} `{!EqDecision K} (key : A → K).

(** Among the rows kept, those of key [k]: none when [k] was seen before,
    otherwise the first row of the frame that has key [k]. *)
Lemma filter_drop_duplicates_from (k : K) (seen : list K) (df : list A) :
  filter (λ x, key x = k) (drop_duplicates_from key seen df)
  = if decide (k ∈ seen) then []
    else option_list (head (filter (λ x, key x = k) df)).
Proof.
  revert seen. induction df as [|x rest IH]; intros seen; simpl.
  - by destruct (decide (k ∈ seen)).
  - destruct (decide (key x ∈ seen)) as [Hin|Hnin].
    + rewrite IH. destruct (decide (k ∈ seen)) as [|Hk]; [done|].
      rewrite filter_cons_False; [done|]. by intros <-.
    + destruct (decide (key x = k)) as [Heq|Hne].
      * rewrite !filter_cons_True by done. rewrite IH.
        rewrite decide_True by set_solver.
        rewrite decide_False; [done|]. by rewrite <- Heq.
      * rewrite !filter_cons_False by done. rewrite IH.
        destruct (decide (k ∈ seen)) as [Hk|Hk].
        -- by rewrite decide_True by set_solver.
        -- rewrite decide_False; [done|]. set_solver.
Qed.

Lemma filter_drop_duplicates (k : K) (df : list A) :
  filter (λ x, key x = k) (drop_duplicates key df)
  = option_list (head (filter (λ x, key x = k) df)).
Proof.
  unfold drop_duplicates. rewrite filter_drop_duplicates_from.
  rewrite decide_False; [done|]. set_solver.
Qed.

Lemma elem_of_drop_duplicates_from (x : A) (seen : list K) (df : list A) :
  x ∈ drop_duplicates_from key seen df → x ∈ df ∧ key x ∉ seen.
Proof.
  revert seen. induction df as [|y rest IH]; intros seen; simpl.
  - by intros ?%elem_of_nil.
  - destruct (decide (key y ∈ seen)).
    + intros [? ?]%IH. set_solver.
    + intros [->|[? ?]%IH]%elem_of_cons; set_solver.
Qed.

Lemma elem_of_drop_duplicates (x : A) (df : list A) :
  x ∈ drop_duplicates key df → x ∈ df.
Proof. intros H. by apply elem_of_drop_duplicates_from in H as [? _]. Qed.

(** Every key of the frame is still there after the de-duplication. *)
Lemma key_drop_duplicates (x : A) (df : list A) :
  x ∈ df → ∃ y, y ∈ drop_duplicates key df ∧ key y = key x.
Proof.
  intros Hx.
  assert (Hf : x ∈ filter (λ y, key y = key x) df)
    by (apply list_elem_of_filter; done).
  pose proof (filter_drop_duplicates (key x) df) as Hd.
  destruct (filter (λ y, key y = key x) df) as [|y ys] eqn:E.
  - by apply elem_of_nil in Hf.
  - simpl in Hd. exists y.
    assert (Hy : y ∈ filter (λ z, key z = key x) (drop_duplicates key df))
      by (rewrite Hd; set_solver).
    by apply list_elem_of_filter in Hy as [? ?].
Qed.

(** Keys are unique after the de-duplication. *)
Lemma NoDup_drop_duplicates_from (seen : list K) (df : list A) :
  NoDup (key <$> drop_duplicates_from key seen df).
Proof.
  revert seen. induction df as [|x rest IH]; intros seen; simpl.
  - constructor.
  - destruct (decide (key x ∈ seen)); [apply IH|].
    rewrite fmap_cons. constructor; [|apply IH].
    intros (y & Hk & Hy)%list_elem_of_fmap.
    apply elem_of_drop_duplicates_from in Hy as [_ Hy].
    apply Hy. rewrite <- Hk. set_solver.
Qed.

Lemma NoDup_drop_duplicates (df : list A) :
  NoDup (key <$> drop_duplicates key df).
Proof. apply NoDup_drop_duplicates_from. Qed.
End drop_duplicates_facts.

Lemma elem_of_drop_duplicates_id {A} `{!EqDecision A} (x : A) (df : list A) :
  x ∈ drop_duplicates id df ↔ x ∈ df.
Proof.
  split; [apply elem_of_drop_duplicates|].
  intros Hx. destruct (key_drop_duplicates id x df Hx) as (y & Hy & Heq).
  simpl in Heq. by subst.
Qed.

Section merge_facts.
Context {A R K : Type} `{!EqDecision K}.
Context (left_on : A → K) (right_on : R → K).

Lemma elem_of_matches (r : R) (k : K) (right : list R) :
  r ∈ matches right_on k right ↔ right_on r = k ∧ r ∈ right.
Proof. unfold matches. by rewrite list_elem_of_filter. Qed.

(** A row of the merge is a left row with one of its matches, or with
    nothing when it has none. *)
Lemma elem_of_merge_row (right : list R) (k : K) (l l' : A) (o : option R) :
  (l', o) ∈ merge_row right_on right k l ↔
  l' = l ∧ match o with
           | Some r => right_on r = k ∧ r ∈ right
           | None => matches right_on k right = []
           end.
Proof.
  unfold merge_row. destruct (matches right_on k right) as [|m ms] eqn:E.
  - rewrite list_elem_of_singleton. split.
    + intros [= -> ->]. done.
    + intros [-> Ho]. destruct o as [r|]; [|done].
      apply elem_of_matches in Ho. rewrite E in Ho. by apply elem_of_nil in Ho.
  - rewrite list_elem_of_fmap. split.
    + intros (r & [= -> ->] & Hr). split; [done|].
      apply elem_of_matches. by rewrite E.
    + intros [-> Ho]. destruct o as [r|]; [|done].
      exists r. split; [done|]. rewrite <- E. by apply elem_of_matches.
Qed.

Lemma elem_of_merge_left (left : list A) (right : list R) (l : A) (o : option R) :
  (l, o) ∈ merge_left left_on right_on left right ↔
  l ∈ left ∧ match o with
             | Some r => right_on r = left_on l ∧ r ∈ right
             | None => matches right_on (left_on l) right = []
             end.
Proof.
  unfold merge_left. rewrite list_elem_of_bind. split.
  - intros (l' & [-> Ho]%elem_of_merge_row & Hl). done.
  - intros [Hl Ho]. exists l. split; [|done]. by apply elem_of_merge_row.
Qed.

(** No left row is lost by a left merge. *)
Lemma merge_left_keeps (left : list A) (right : list R) (l : A) :
  l ∈ left → ∃ o, (l, o) ∈ merge_left left_on right_on left right.
Proof.
  intros Hl. destruct (matches right_on (left_on l) right) as [|r rs] eqn:E.
  - exists None. by apply elem_of_merge_left.
  - exists (Some r). apply elem_of_merge_left. split; [done|].
    apply elem_of_matches. rewrite E. set_solver.
Qed.

(** A left row without a match is not dropped: it stays, once, with the
    columns of [right] missing. *)
Lemma merge_row_unmatched (right : list R) (k : K) (l : A) :
  matches right_on k right = [] → merge_row right_on right k l = [(l, None)].
Proof. unfold merge_row. by intros ->. Qed.

Lemma merge_row_resolved (right : list R) (l : A) :
  resolves left_on right_on right l →
  fst <$> merge_row right_on right (left_on l) l = [l].
Proof.
  unfold resolves, merge_row. intros Hone.
  destruct (matches right_on (left_on l) right) as [|r [|r' rs]]; done.
Qed.

(** When every lookup resolves, the merge has the left rows, each once,
    in their order. *)
Lemma merge_left_resolved (left : list A) (right : list R) :
  Forall (resolves left_on right_on right) left →
  fst <$> merge_left left_on right_on left right = left.
Proof.
  unfold merge_left. induction 1 as [|l left Hl _ IH]; [done|].
  rewrite bind_cons, fmap_app, IH, merge_row_resolved by done. done.
Qed.
End merge_facts.

Section index_facts.
Context {A B : Type} (mk : Z → A → B).

Lemma length_index_plus_one (df : list A) :
  length (index_plus_one mk df) = length df.
Proof. apply length_imap. Qed.

Lemma elem_of_index_plus_one (y : B) (df : list A) :
  y ∈ index_plus_one mk df ↔
  ∃ i x, df !! i = Some x ∧ y = mk (Z.of_nat i + 1) x.
Proof.
  unfold index_plus_one. rewrite elem_of_lookup_imap. naive_solver.
Qed.

(** A column that does not depend on the identifier is the column of the
    frame that was numbered. *)
Lemma column_index_plus_one {C} (f : B → C) (g : A → C) (df : list A) :
  (∀ i x, f (mk i x) = g x) → f <$> index_plus_one mk df = g <$> df.
Proof.
  intros Hf. unfold index_plus_one. rewrite fmap_imap.
  rewrite <- (imap_const g). apply imap_ext. intros; simpl. apply Hf.
Qed.

(** The identifiers are 1, 2, ..., K in the order of the rows. *)
Lemma ids_index_plus_one (f : B → Z) (df : list A) :
  (∀ i x, f (mk i x) = i) →
  f <$> index_plus_one mk df = seqZ 1 (Z.of_nat (length df)).
Proof.
  intros Hf. unfold index_plus_one. rewrite fmap_imap.
  rewrite (imap_ext _ (λ j _, Z.of_nat j + 1)) by (intros; simpl; apply Hf).
  rewrite (imap_seq_0 df (λ j, Z.of_nat j + 1)).
  unfold seqZ. rewrite Nat2Z.id.
  apply list_fmap_ext. intros; lia.
Qed.
End index_facts.

(** ** The fact table *)

Lemma fact_measures_select (i : Z) (j : joined) :
  fact_measures (select_fact i j) = measures (source j).
Proof. by destruct j as [[[[r s] c] p] m]. Qed.

Lemma transaction_id_select (i : Z) (j : joined) :
  transaction_id (select_fact i j) = i.
Proof. by destruct j as [[[[r s] c] p] m]. Qed.

(** The transaction identifiers are the positions in the joined frame. *)
Lemma transaction_ids (fact : list joined) :
  transaction_id <$> fact_table_of fact = seqZ 1 (Z.of_nat (length fact)).
Proof. apply ids_index_plus_one, transaction_id_select. Qed.


Lemma source_fact_df_resolved (df : list row) :
  zero_unresolved df →
  source <$> fact_df df (dim_state df) (dim_city df) (dim_product df)
               (dim_sales_method df) = df.
Proof.
  intros (Hstate & Hcity & Hproduct & Hmethod).
  unfold fact_df, merge_sales_method, merge_product, merge_city, merge_state in *.
  assert (Hsrc : ∀ fact : list joined,
             source <$> fact = fst <$> (fst <$> (fst <$> (fst <$> fact)))).
  { intros fact. by rewrite <- !list_fmap_compose. }
  rewrite Hsrc.
  by rewrite !merge_left_resolved.
Qed.



(** ** Every lookup of the task finds a match

    The dimension tables are derived from the frame the fact table is built
    from, missing values included, so each merge of the task finds at least
    one row. *)

Lemma key_index_plus_one {A B C} (mk : Z → A → B) (f : B → C) (g : A → C)
    (df : list A) (k : C) :
  (∀ i x, f (mk i x) = g x) → k ∈ g <$> df →
  ∃ y, y ∈ index_plus_one mk df ∧ f y = k.
Proof.
  intros Hf Hk. rewrite <- (column_index_plus_one mk f g df Hf) in Hk.
  apply list_elem_of_fmap in Hk as (y & -> & Hy). by exists y.
Qed.

Lemma region_matched (df : list row) (r : row) :
  r ∈ df → ∃ g, g ∈ dim_region df ∧ rg_region_name g = region r.
Proof.
  intros Hr. unfold dim_region.
  apply (key_index_plus_one _ rg_region_name id); [done|].
  rewrite list_fmap_id. apply elem_of_drop_duplicates_id.
  by apply list_elem_of_fmap_2.
Qed.

Lemma matches_nonempty {R K} `{!EqDecision K} (right_on : R → K) (k : K)
    (right : list R) (x : R) :
  x ∈ right → right_on x = k → matches right_on k right ≠ [].
Proof.
  intros Hx Hk Hnil.
  assert (x ∈ matches right_on k right) as Hin by by apply elem_of_matches.
  rewrite Hnil in Hin. by apply elem_of_nil in Hin.
Qed.

(** A row of the state dimension is a state of some input row, with the
    identifier of that row's region. *)
Lemma elem_of_dim_state (df : list row) (x : state_row) :
  x ∈ dim_state df →
  ∃ r g, r ∈ df ∧ g ∈ dim_region df ∧ rg_region_name g = region r
         ∧ st_state_name x = state r ∧ st_region_id x = Some (rg_region_id g).
Proof.
  unfold dim_state. intros (i & p & Hp & ->)%elem_of_index_plus_one.
  apply list_elem_of_lookup_2 in Hp. apply elem_of_drop_duplicates in Hp.
  apply list_elem_of_fmap in Hp as ([[s g] o] & -> & Hq).
  unfold df_state_prep in Hq. apply elem_of_merge_left in Hq as [Hsg Ho].
  apply elem_of_drop_duplicates in Hsg.
  apply list_elem_of_fmap in Hsg as (r & [= -> ->] & Hr).
  destruct o as [g|]; simpl in *.
  - destruct Ho as [Hname Hg]. by exists r, g.
  - destruct (region_matched df r Hr) as (g & Hg & Hname).
    by destruct (matches_nonempty rg_region_name (region r) (dim_region df) g).
Qed.

(** Every input row finds its state, under its own region, in the state
    dimension. *)
Lemma state_matched (df : list row) (r : row) :
  r ∈ df →
  ∃ x g, x ∈ dim_state df ∧ g ∈ dim_region df
         ∧ st_state_name x = state r
         ∧ rg_region_name g = region r
         ∧ st_region_id x = Some (rg_region_id g).
Proof.
  intros Hr. destruct (region_matched df r Hr) as (g & Hg & Hname).
  destruct (key_index_plus_one (λ i p, StateRow p.1 p.2 i)
              (λ x, (st_state_name x, st_region_id x)) id
              (drop_duplicates id
                 ((λ p : (cell * cell) * option region_row,
                     (p.1.1, rg_region_id <$> p.2)) <$> df_state_prep df))
              (state r, Some (rg_region_id g))) as (x & Hx & Hkey).
  - by intros i [s o].
  - rewrite list_fmap_id. apply elem_of_drop_duplicates_id.
    apply list_elem_of_fmap. exists ((state r, region r), Some g). split; [done|].
    apply elem_of_merge_left. split; [|done].
    apply elem_of_drop_duplicates_id. apply list_elem_of_fmap. by exists r.
  - injection Hkey as Hn Hg'. by exists x, g.
Qed.

Lemma city_matched (df : list row) (r : row) (x : state_row) :
  r ∈ df → x ∈ dim_state df → st_state_name x = state r →
  ∃ c, c ∈ dim_city df ∧ city_right_on c = (city r, Some (st_state_id x)).
Proof.
  intros Hr Hx Hname. unfold dim_city.
  apply (key_index_plus_one _ city_right_on id); [by intros i [s o]|].
  rewrite list_fmap_id. apply elem_of_drop_duplicates_id.
  apply list_elem_of_fmap. exists ((city r, state r), Some x). split; [done|].
  apply elem_of_merge_left. split; [|done].
  apply elem_of_drop_duplicates_id. apply list_elem_of_fmap. by exists r.
Qed.

Lemma fst_drop_duplicates_elem {A K} `{!EqDecision K} (key : A → K)
    (df : list A) (x : A) :
  x ∈ df → key x ∈ key <$> drop_duplicates key df.
Proof.
  intros (y & Hy & <-)%(key_drop_duplicates key). by apply list_elem_of_fmap_2.
Qed.

Lemma product_matched (df : list row) (r : row) :
  r ∈ df → ∃ p, p ∈ dim_product df ∧ pr_product_name p = product r.
Proof.
  intros Hr. unfold dim_product.
  apply (key_index_plus_one _ pr_product_name fst); [done|].
  apply (fst_drop_duplicates_elem fst _ (product r, price_per_unit r)).
  apply list_elem_of_fmap. by exists r.
Qed.

Lemma sales_method_matched (df : list row) (r : row) :
  r ∈ df → ∃ m, m ∈ dim_sales_method df ∧ sm_method_name m = sales_method r.
Proof.
  intros Hr. unfold dim_sales_method.
  apply (key_index_plus_one _ sm_method_name id); [done|].
  rewrite list_fmap_id. apply elem_of_drop_duplicates_id.
  by apply list_elem_of_fmap_2.
Qed.

(** ** The left merges of the fact build keep every row *)

Lemma fact_df_keeps (df : list row) (dstate : list state_row)
    (dcity : list city_row) (dproduct : list product_row)
    (dmethod : list sales_method_row) (r : row) :
  r ∈ df → ∃ j, j ∈ fact_df df dstate dcity dproduct dmethod ∧ source j = r.
Proof.
  intros Hr. unfold fact_df, merge_sales_method, merge_product, merge_city, merge_state.
  destruct (merge_left_keeps state st_state_name df dstate r Hr) as [s Hs].
  destruct (merge_left_keeps city_left_on city_right_on _ dcity _ Hs) as [c Hc].
  destruct (merge_left_keeps product_left_on pr_product_name _ dproduct _ Hc)
    as [p Hp].
  destruct (merge_left_keeps sales_method_left_on sm_method_name _ dmethod _ Hp)
    as [m Hm].
  by exists ((((r, s), c), p), m).
Qed.

Lemma elem_of_fact_table_of (fact : list joined) (f : fact_row) :
  f ∈ fact_table_of fact ↔
  ∃ i j, fact !! i = Some j ∧ f = select_fact (Z.of_nat i + 1) j.
Proof. apply elem_of_index_plus_one. Qed.

(** C6, as the task has it: the joins are left joins over dimensions derived
    from the same rows.  Whatever the dimension tables are, every input row
    is kept by the fact build, matched or not; and in the task each lookup
    finds a match, so that every fact row carries a city, product, sales
    method and region identifier. *)
Theorem lookups_always_match (df : list row) :
  (∀ dstate dcity dproduct dmethod,
     Forall (λ r, ∃ f, f ∈ fact_table_of (fact_df df dstate dcity dproduct dmethod)
                       ∧ fact_measures f = measures r) df)
  ∧ Forall (λ f, is_Some (f_city_id f) ∧ is_Some (f_product_id f)
                 ∧ is_Some (f_sales_method_id f) ∧ is_Some (f_region_id f))
      (fact_table df).
Proof.
  split; [intros dstate dcity dproduct dmethod|]; apply Forall_forall.
  - intros r Hr.
    destruct (fact_df_keeps df dstate dcity dproduct dmethod r Hr) as (j & Hj & <-).
    apply list_elem_of_lookup_1 in Hj as [i Hi].
    exists (select_fact (Z.of_nat i + 1) j). split.
    + apply elem_of_fact_table_of. by exists i, j.
    + apply fact_measures_select.
  - intros f (i & [[[[r s] c] p] m] & Hj & ->)%elem_of_fact_table_of.
    apply list_elem_of_lookup_2 in Hj.
    unfold fact_df, merge_sales_method, merge_product, merge_city, merge_state in Hj.
    apply elem_of_merge_left in Hj as [Hj Hm].
    apply elem_of_merge_left in Hj as [Hj Hp].
    apply elem_of_merge_left in Hj as [Hj Hc].
    apply elem_of_merge_left in Hj as [Hr Hs].
    destruct (state_matched df r Hr) as (x & g & Hx & Hg & Hname & _ & _).
    destruct s as [x'|];
      [|by destruct (matches_nonempty st_state_name (state r) (dim_state df) x)].
    destruct Hs as [Hname' Hx'].
    destruct (city_matched df r x' Hr Hx' Hname') as (c' & Hc' & Hkey).
    destruct c as [c''|];
      [|by destruct (matches_nonempty city_right_on
                       (city_left_on (r, Some x')) (dim_city df) c')].
    destruct (product_matched df r Hr) as (p' & Hp' & Hpn).
    destruct p as [p''|];
      [|by destruct (matches_nonempty pr_product_name (product r)
                       (dim_product df) p')].
    destruct (sales_method_matched df r Hr) as (m' & Hm' & Hmn).
    destruct m as [m''|];
      [|by destruct (matches_nonempty sm_method_name (sales_method r)
                       (dim_sales_method df) m')].
    simpl. repeat split; try done.
    destruct (elem_of_dim_state df x' Hx') as (? & ? & _ & _ & _ & _ & ->). done.
Qed.

(** C6 as stated fails: rows are not excluded and fact rows can carry a
    missing key.  A row whose product is not in the product dimension stays
    in the fact table, with a missing product identifier; and a row whose
    retailer identifier is missing is in the fact table of the task with
    that missing foreign key. *)
Lemma unresolved_row_kept :
  ¬ (∀ f, f ∈ fact_table_of
              (fact_df example_df (dim_state example_df) (dim_city example_df)
                 [] (dim_sales_method example_df)) →
          f_product_id f ≠ None)
  ∧ ¬ (∀ f, f ∈ fact_table anonymous_df → f_retailer_id f ≠ NA).
Proof.
  split; intros H.
  - set (facts := fact_table_of _) in H. vm_compute in facts.
    by eapply H; [apply list_elem_of_here|].
  - set (facts := fact_table _) in H. vm_compute in facts.
    by eapply H; [apply list_elem_of_here|].
Qed.

(** ** Surrogate keys *)

(** In each numbered dimension the identifiers are 1, 2, ..., K in the order
    of the rows, K the number of rows. *)
Lemma surrogate_keys_contiguous (df : list row) :
  rg_region_id <$> dim_region df = seqZ 1 (Z.of_nat (length (dim_region df)))
  ∧ st_state_id <$> dim_state df = seqZ 1 (Z.of_nat (length (dim_state df)))
  ∧ ct_city_id <$> dim_city df = seqZ 1 (Z.of_nat (length (dim_city df)))
  ∧ pr_product_id <$> dim_product df = seqZ 1 (Z.of_nat (length (dim_product df)))
  ∧ sm_sales_method_id <$> dim_sales_method df
    = seqZ 1 (Z.of_nat (length (dim_sales_method df))).
Proof.
  unfold dim_region, dim_state, dim_city, dim_product, dim_sales_method.
  rewrite !length_index_plus_one.
  repeat split; by apply ids_index_plus_one.
Qed.

(** Rows of a numbered table with the same identifier are the same row. *)
Lemma index_plus_one_id_inj {A B} (mk : Z → A → B) (f : B → Z) (df : list A)
    (y1 y2 : B) :
  (∀ i x, f (mk i x) = i) →
  y1 ∈ index_plus_one mk df → y2 ∈ index_plus_one mk df → f y1 = f y2 → y1 = y2.
Proof.
  intros Hf (i1 & x1 & H1 & ->)%elem_of_index_plus_one
            (i2 & x2 & H2 & ->)%elem_of_index_plus_one.
  rewrite !Hf. intros Heq. assert (i1 = i2) as -> by lia. congruence.
Qed.

(** The number of rows kept by a de-duplication is the number of distinct
    keys. *)
Lemma length_drop_duplicates {A K} `{!EqDecision K} (key : A → K) (df : list A) :
  length (drop_duplicates key df) = length (remove_dups (key <$> df)).
Proof.
  rewrite <- (length_fmap key). apply Permutation_length, NoDup_Permutation.
  - apply NoDup_drop_duplicates.
  - apply NoDup_remove_dups.
  - intros k. rewrite elem_of_remove_dups. split.
    + intros (y & -> & Hy%elem_of_drop_duplicates)%list_elem_of_fmap.
      by apply list_elem_of_fmap_2.
    + intros (x & -> & Hx)%list_elem_of_fmap. by apply fst_drop_duplicates_elem.
Qed.

(** Region, product and sales method: K is the number of distinct names in
    the input. *)
Lemma dimension_sizes (df : list row) :
  length (dim_region df) = length (remove_dups (region <$> df))
  ∧ length (dim_product df) = length (remove_dups (product <$> df))
  ∧ length (dim_sales_method df) = length (remove_dups (sales_method <$> df)).
Proof.
  unfold dim_region, dim_product, dim_sales_method.
  rewrite !length_index_plus_one, !length_drop_duplicates, !list_fmap_id.
  by rewrite <- list_fmap_compose.
Qed.

(** Retailer: the identifiers of the dimension are those of the input. *)
Lemma retailer_keys (df : list row) (k : cell) :
  k ∈ rt_retailer_id <$> dim_retailer df ↔ k ∈ retailer_id <$> df.
Proof.
  unfold dim_retailer. rewrite !list_elem_of_fmap. split.
  - intros (x & -> & ([i n] & -> & Hp)%list_elem_of_fmap).
    apply elem_of_drop_duplicates in Hp.
    apply list_elem_of_fmap in Hp as (r & [= -> ->] & Hr). by exists r.
  - intros (r & -> & Hr). exists (RetailerRow (retailer_id r) (retailer r)).
    split; [done|]. apply list_elem_of_fmap.
    exists (retailer_id r, retailer r). split; [done|].
    apply elem_of_drop_duplicates_id. apply list_elem_of_fmap. by exists r.
Qed.

Lemma dim_region_id_inj (df : list row) (g1 g2 : region_row) :
  g1 ∈ dim_region df → g2 ∈ dim_region df →
  rg_region_id g1 = rg_region_id g2 → g1 = g2.
Proof. unfold dim_region. by apply index_plus_one_id_inj. Qed.

Lemma dim_state_id_inj (df : list row) (x1 x2 : state_row) :
  x1 ∈ dim_state df → x2 ∈ dim_state df →
  st_state_id x1 = st_state_id x2 → x1 = x2.
Proof. unfold dim_state. by apply index_plus_one_id_inj. Qed.

(** X19 (two states of one name): two states of one name in two regions
    are two rows of the state dimension, each under its own region, with two
    identifiers. *)
Lemma twin_states_distinct_ids (df : list row) (r1 r2 : row) :
  r1 ∈ df → r2 ∈ df → state r1 = state r2 → region r1 ≠ region r2 →
  ∃ x1 x2 g1 g2,
    x1 ∈ dim_state df ∧ x2 ∈ dim_state df
    ∧ g1 ∈ dim_region df ∧ g2 ∈ dim_region df
    ∧ rg_region_name g1 = region r1 ∧ rg_region_name g2 = region r2
    ∧ st_state_name x1 = state r1 ∧ st_state_name x2 = state r2
    ∧ st_region_id x1 = Some (rg_region_id g1)
    ∧ st_region_id x2 = Some (rg_region_id g2)
    ∧ st_state_id x1 ≠ st_state_id x2.
Proof.
  intros Hr1 Hr2 Hstate Hregion.
  destruct (state_matched df r1 Hr1) as (x1 & g1 & Hx1 & Hg1 & Hn1 & Hgn1 & Hi1).
  destruct (state_matched df r2 Hr2) as (x2 & g2 & Hx2 & Hg2 & Hn2 & Hgn2 & Hi2).
  exists x1, x2, g1, g2. repeat split; try done.
  intros Hid.
  assert (x1 = x2) as -> by by apply (dim_state_id_inj df).
  assert (g1 = g2) as -> by (apply (dim_region_id_inj df); congruence).
  congruence.
Qed.

(** ** The join on the state name alone *)

(** C1 at [twin_df]: East and West each have a state Springfield; Alton is
    in the one of East, Salem in the one of West.  The state dimension has
    two rows with two identifiers, but the city build and the fact build join
    it on the state name alone: each city is entered under both states, and
    each input row yields two fact rows, one of them under the region the
    row is not from. *)
Lemma twin_states_joined_on_name :
  dim_state twin_df
  = [ StateRow (Str "Springfield") (Some 1) 1;
      StateRow (Str "Springfield") (Some 2) 2 ]
  ∧ dim_city twin_df
    = [ CityRow (Str "Alton") (Some 1) 1; CityRow (Str "Alton") (Some 2) 2;
        CityRow (Str "Salem") (Some 1) 3; CityRow (Str "Salem") (Some 2) 4 ]
  ∧ (λ f, (f_retailer_id f, f_region_id f, f_city_id f)) <$> fact_table twin_df
    = [ (Str "1", Some 1, Some 1); (Str "1", Some 2, Some 2);
        (Str "2", Some 1, Some 3); (Str "2", Some 2, Some 4) ].
Proof. by vm_compute. Qed.

(** C3 at [twin_df]: the input has two cities, each in one state of one
    region; the city dimension has four rows, with keys 1 to 4. *)
Lemma twin_states_city_keys :
  length (remove_dups ((λ r, (city r, state r, region r)) <$> twin_df)) = 2%nat
  ∧ length (remove_dups ((λ r, (city r, state r)) <$> twin_df)) = 2%nat
  ∧ ct_city_id <$> dim_city twin_df = [1; 2; 3; 4].
Proof. by vm_compute. Qed.

(** C5 at [twin_df]: two input rows, four transaction identifiers; the first
    input row has the identifiers 1 and 2, the second 3 and 4. *)
Lemma twin_states_transaction_ids :
  length twin_df = 2%nat
  ∧ (λ f, (transaction_id f, f_retailer_id f)) <$> fact_table twin_df
    = [ (1, Str "1"); (2, Str "1"); (3, Str "2"); (4, Str "2") ].
Proof. by vm_compute. Qed.

(** C9 at [two_names_df]: one retailer identifier under two names gives two
    rows of the retailer dimension with that identifier. *)
Lemma retailer_id_twice :
  dim_retailer two_names_df
  = [ RetailerRow (Str "1185732") (Str "Foot Locker");
      RetailerRow (Str "1185732") (Str "Walmart") ].
Proof. by vm_compute. Qed.

(** ** The task: effects of its steps *)

Ltac run_task :=
  unfold mbind, M_bind, mret, M_ret, logger_info, logger_error, logger, raise,
    lift, check, set_engine, replace_table;
  simpl; rewrite <- ?(assoc_L (++)).

Section effects.
Implicit Types (l : list log_record) (ws : list (string * table)).

Lemma effect_ret {A} (x : A) : effect (mret x) (inr x) [] [] None.
Proof.
  split; [|constructor]. intros [lg pr en]. unfold mret, M_ret; simpl.
  by rewrite app_nil_r.
Qed.

Lemma effect_lift {A} (r : exn + A) : effect (lift r) r [] [] None.
Proof.
  split; [|constructor]. intros [lg pr en]. unfold lift; simpl.
  by rewrite app_nil_r.
Qed.

Lemma effect_check (r : option exn) :
  effect (check r) (from_option inl (inr ()) r) [] [] None.
Proof. destruct r; [apply (effect_lift (inl _))|apply effect_ret]. Qed.

Lemma effect_logger (lv : level) (m : message) :
  lv ≠ WARNING → effect (logger lv m) (inr ()) [LogRecord lv m] [] None.
Proof. intros Hlv. split; [|by repeat constructor]. by intros [lg pr en]. Qed.

Lemma effect_set_engine (e : option engine_state) :
  effect (set_engine e) (inr ()) [] [] (Some e).
Proof.
  split; [|constructor]. intros [lg pr en]. unfold set_engine; simpl.
  by rewrite app_nil_r.
Qed.

Lemma effect_replace_table (name : string) (t : table) :
  effect (replace_table name t) (inr ()) [] [(name, t)] None.
Proof.
  split; [|constructor]. intros [lg pr en]. unfold replace_table; simpl.
  by rewrite app_nil_r.
Qed.

Lemma default_default (e : option engine_state)
    (eng1 eng2 : option (option engine_state)) :
  default (default e eng1) eng2
  = default e (match eng2 with Some x => Some x | None => eng1 end).
Proof. by destruct eng2. Qed.

Lemma effect_bind_raise {A B} (m : M A) (f : A → M B) e l ws eng :
  effect m (inl e) l ws eng → effect (m ≫= f) (inl e) l ws eng.
Proof.
  intros [Hm Hl]. split; [|done]. intros s.
  unfold mbind, M_bind. by rewrite Hm.
Qed.

Lemma effect_bind {A B} (m : M A) (f : A → M B) x l ws eng r l' ws' eng' :
  effect m (inr x) l ws eng → effect (f x) r l' ws' eng' →
  effect (m ≫= f) r (l ++ l') (ws ++ ws')
    (match eng' with Some y => Some y | None => eng end).
Proof.
  intros [Hm Hl] [Hf Hl']. split; [|by apply Forall_app]. intros s.
  unfold mbind, M_bind. rewrite Hm, Hf. simpl.
  unfold apply_writes. by rewrite foldl_app, default_default, (assoc_L (++)).
Qed.

(** What follows a step may write, but the assignment to [engine] is the
    step's. *)
Lemma effect_then {A B} (m : M A) (f : A → M B) eng :
  (∃ r l ws, effect m r l ws eng) →
  (∀ x, ∃ r l ws, effect (f x) r l ws None) →
  ∃ r l ws, effect (m ≫= f) r l ws eng.
Proof.
  intros ([e|x] & l & ws & Hm) Hf.
  - exists (inl e), l, ws. by apply effect_bind_raise.
  - destruct (Hf x) as (r & l' & ws' & Hfx). exists r, (l ++ l'), (ws ++ ws').
    apply (effect_bind m f x l ws eng r l' ws' None Hm Hfx).
Qed.

Lemma silent_bind {A B} (m : M A) (f : A → M B) :
  silent m → (∀ x, silent (f x)) → silent (m ≫= f).
Proof.
  intros ([e|x] & l & Hm) Hf.
  - exists (inl e), l. by apply effect_bind_raise.
  - destruct (Hf x) as (r & l' & Hfx). exists r, (l ++ l').
    apply (effect_bind m f x l [] None r l' [] None Hm Hfx).
Qed.

Lemma silent_writes {A} (m : M A) : silent m → ∃ r l ws, effect m r l ws None.
Proof. intros (r & l & Hm). by exists r, l, []. Qed.

Lemma silent_lift {A} (r : exn + A) : silent (lift r).
Proof. exists r, []. apply effect_lift. Qed.

Lemma silent_ret {A} (x : A) : silent (mret x).
Proof. exists (inr x), []. apply effect_ret. Qed.

Lemma silent_check (r : option exn) : silent (check r).
Proof. eexists _, []. apply effect_check. Qed.

Lemma silent_logger_info (m : message) : silent (logger_info m).
Proof. eexists _, _. by apply effect_logger. Qed.

Lemma silent_clean (w : world) (df : dataframe) : silent (clean w df).
Proof.
  unfold clean.
  repeat (apply silent_bind; [|intros ?]);
    auto using silent_lift, silent_ret, silent_logger_info.
Qed.

Lemma load_table_writes (w : world) (t : table) (name : string)
    (dtypes : list (string * Sql.type)) :
  ∃ r l ws, effect (load_table w t name dtypes) r l ws None.
Proof.
  unfold load_table.
  apply effect_then; [apply silent_writes, silent_logger_info|intros _].
  apply effect_then; [apply silent_writes, silent_check|intros _].
  eexists _, _, _. apply effect_replace_table.
Qed.

Lemma load_writes (w : world) (t : star_schema) :
  ∃ r l ws, effect (load w t) r l ws None.
Proof.
  unfold load.
  repeat (apply effect_then; [apply load_table_writes|intros _]).
  apply silent_writes, silent_logger_info.
Qed.

Lemma read_raw_effect (w : world) :
  ∃ r l, effect (read_raw w) r l [] (engine_after w).
Proof.
  unfold read_raw, engine_after, effect.
  destruct (create_engine w) as [e|]; [|destruct (connect w) as [e|]];
    [| |destruct (read_sql_table w) as [e|df]];
    eexists _, _;
    (split; [intros [lg pr en]; run_task; reflexivity|by repeat constructor]).
Qed.

(** The [try] block: its result, log records and writes are those of the
    world; [engine] is assigned when [create_engine] returns. *)
Lemma try_block_effect (w : world) :
  ∃ r l ws, effect (try_block w) r l ws (engine_after w).
Proof.
  unfold try_block.
  apply effect_then.
  { destruct (read_raw_effect w) as (r & l & H). by exists r, l, []. }
  intros df.
  apply effect_then; [apply silent_writes, silent_clean|intros df'].
  apply effect_then; [apply silent_writes, silent_lift|intros t].
  apply effect_then; [apply silent_writes, silent_logger_info|intros _].
  apply load_writes.
Qed.
End effects.

(** ** The task: [transform_data] *)

(** What [transform_data] does, in terms of its [try] block: the handlers
    log the exception, the [finally] clause disposes of the engine if there
    is one, and the function returns. *)
Lemma transform_data_unfold (w : world) (s : task_state) :
  transform_data w s =
  let body := try_block w (enter s) in
  (inr (),
   {| log := log body.2 ++ match body.1 with
                           | inl e => [error_record e]
                           | inr _ => []
                           end;
      processed := processed body.2;
      engine := match engine body.2 with
                | Some _ => Some Disposed
                | None => None
                end |}).
Proof.
  unfold transform_data, try_except_finally, dispose_engine, error_record.
  destruct s as [lg pr en]. run_task. unfold enter; simpl.
  destruct (try_block w _) as [[e|[]] [lg' pr' en']]; simpl.
  - destruct (is_SQLAlchemyError e); run_task; by destruct en'.
  - rewrite app_nil_r. by destruct en'.
Qed.

(** Replaying accepted writes over their own result changes nothing. *)
Lemma apply_writes_union (ws : list (string * table)) (store : gmap string table) :
  apply_writes ws store = list_to_map (reverse ws) ∪ store.
Proof.
  unfold apply_writes. revert store.
  induction ws as [|[name t] ws IH]; intros store; simpl.
  - by rewrite (left_id_L ∅ (∪)).
  - rewrite IH, reverse_cons, list_to_map_app. simpl.
    rewrite insert_empty, <- (assoc_L (∪)).
    by rewrite <- insert_union_singleton_l.
Qed.

Lemma apply_writes_idemp (ws : list (string * table)) (store : gmap string table) :
  apply_writes ws (apply_writes ws store) = apply_writes ws store.
Proof.
  rewrite !apply_writes_union, (assoc_L (∪)). by rewrite (idemp_L (∪)).
Qed.

(** The whole effect of a call is determined by the world: the call returns,
    appends records to the log, none of them a warning, makes the writes the
    world accepts, and leaves the engine disposed if it was created. *)
Lemma transform_data_effect (w : world) :
  ∃ l ws,
    Forall (λ x, levelname x ≠ WARNING) l
    ∧ ∀ s, transform_data w s
           = (inr (),
              {| log := log s ++ l;
                 processed := apply_writes ws (processed s);
                 engine := match create_engine w with
                           | None => Some Disposed
                           | Some _ => None
                           end |}).
Proof.
  destruct (try_block_effect w) as (r & l & ws & Hbody & Hl).
  exists (l ++ match r with inl e => [error_record e] | inr _ => [] end), ws.
  split.
  - apply Forall_app. split; [done|].
    destruct r as [e|]; [|constructor]. by repeat constructor.
  - intros s. rewrite transform_data_unfold, Hbody. simpl.
    rewrite (assoc_L (++)). unfold engine_after. by destruct (create_engine w).
Qed.

(** C10: [transform_data] never lets an exception out.  Whatever the world,
    the call returns (inr () is the return of None); an exception raised in
    the [try] block is logged as an error after what the block logged; the
    engine is disposed of whenever it was created. *)
Theorem transform_data_never_raises (w : world) (s : task_state) :
  let body := try_block w (enter s) in
  let final := transform_data w s in
  final.1 = inr ()
  ∧ log final.2 = log body.2 ++ match body.1 with
                                | inl e => [error_record e]
                                | inr _ => []
                                end
  ∧ engine final.2 = match create_engine w with
                     | None => Some Disposed
                     | Some _ => None
                     end.
Proof.
  simpl. split; [|split].
  - by rewrite transform_data_unfold.
  - by rewrite transform_data_unfold.
  - destruct (transform_data_effect w) as (l & ws & _ & H). by rewrite H.
Qed.

(** The three failures the task meets in practice: the raw table cannot be
    read, a column is absent, a write is refused.  Each time the call
    returns, the last log record is the error, and the engine is disposed. *)
Lemma failures_are_logged :
  let unreadable := transform_data unreadable_world initial_state in
  let no_region := transform_data (fair_world no_region_frame) initial_state in
  let refused :=
    transform_data (refusing_world (raw_frame example_df)) initial_state in
  (unreadable.1 = inr ()
   ∧ last (log unreadable.2)
     = Some (LogRecord ERROR
               (Database_error
                  (SQLAlchemyError "relation raw.sales_raw does not exist")))
   ∧ engine unreadable.2 = Some Disposed)
  ∧ (no_region.1 = inr ()
     ∧ last (log no_region.2)
       = Some (LogRecord ERROR (Unexpected_error (KeyError ["region"%string])))
     ∧ engine no_region.2 = Some Disposed)
  ∧ (refused.1 = inr ()
     ∧ last (log refused.2)
       = Some (LogRecord ERROR (Database_error (SQLAlchemyError "connection lost")))
     ∧ engine refused.2 = Some Disposed).
Proof. by vm_compute. Qed.

(** C4 (determinism): what a run returns, logs and writes is fixed by the
    world, that is by the raw table and by what the environment answers;
    two runs on the same input make the same writes, table for table and row
    for row, whatever the store held before.  In particular a second run
    leaves the tables as the first run left them. *)
Theorem transform_data_deterministic (w : world) :
  (∃ l ws, ∀ s,
      (transform_data w s).1 = inr ()
      ∧ log (transform_data w s).2 = log s ++ l
      ∧ processed (transform_data w s).2 = apply_writes ws (processed s))
  ∧ (∀ s, processed (transform_data w (transform_data w s).2).2
          = processed (transform_data w s).2).
Proof.
  destruct (transform_data_effect w) as (l & ws & _ & H). split.
  - exists l, ws. intros s. by rewrite H.
  - intros s. rewrite !H. simpl. apply apply_writes_idemp.
Qed.

(** ** Columns *)

Lemma missing_columns_nil (df : dataframe) (names : list string) :
  missing_columns df names = [] ↔ Forall (λ n, column df n ≠ None) names.
Proof.
  unfold missing_columns. induction names as [|n names IH]; simpl.
  - split; [constructor|done].
  - rewrite filter_cons. destruct (decide (column df n = None)) as [Hn|Hn].
    + split; [done|]. by intros [? ?]%Forall_cons.
    + rewrite IH. split; [by constructor|]. by intros [? ?]%Forall_cons.
Qed.

Lemma select_present (df : dataframe) (names : list string) :
  missing_columns df required_columns = [] → names ⊆ required_columns →
  select df names = inr ().
Proof.
  intros Hreq%missing_columns_nil Hsub. unfold select.
  assert (missing_columns df names = []) as ->; [|done].
  apply missing_columns_nil, Forall_forall. intros n Hn.
  rewrite Forall_forall in Hreq. by apply Hreq, Hsub.
Qed.


(** Assigning to a column that exists changes no column name. *)
Lemma column_set_column_None (df : dataframe) (name n : string)
    (values : list cell) :
  column (set_column df name values) n = None ↔ column df n = None.
Proof.
  unfold column, set_column; simpl. rewrite !fmap_None, !list_find_None.
  rewrite Forall_fmap. apply Forall_iff. intros [c v]; simpl.
  by destruct (decide (c = name)).
Qed.

Lemma missing_columns_set_column (df : dataframe) (name : string)
    (values : list cell) (names : list string) :
  missing_columns (set_column df name values) names = missing_columns df names.
Proof.
  unfold missing_columns. apply list_filter_iff. intros n.
  apply column_set_column_None.
Qed.

(** When no column is missing the selections pass and the tables are those
    of [transform] on the rows of the frame. *)
Lemma normalize_complete (df : dataframe) :
  missing_columns df required_columns = [] →
  normalize df = inr (transform (records df)).
Proof.
  intros Hreq. unfold normalize.
  rewrite !(select_present df _ Hreq) by set_solver. done.
Qed.


(** ** A missing column, or a date column that does not convert *)





(** ** A run in which everything succeeds *)

Lemma bind_returns {A B} (m : M A) (f : A → M B) (s s' : task_state) (x : A) :
  m s = (inr x, s') → (m ≫= f) s = f x s'.
Proof. intros H. unfold mbind, M_bind. by rewrite H. Qed.

Lemma read_raw_connected (w : world) (df : dataframe) (s : task_state) :
  create_engine w = None → connect w = None → read_sql_table w = inr df →
  read_raw w s
  = (inr df,
     {| log := log s ++ [ LogRecord INFO Establishing_connection;
                          LogRecord INFO Connection_successful;
                          LogRecord INFO Reading_raw;
                          LogRecord INFO (Data_read (nrows df) (length (columns df))) ];
        processed := processed s;
        engine := Some Open |}).
Proof.
  intros Hengine Hconnect Hread. destruct s as [lg pr en].
  unfold read_raw. run_task. rewrite Hengine, Hconnect, Hread. by run_task.
Qed.

Lemma clean_converted (w : world) (df : dataframe) (dates dates' : list cell)
    (s : task_state) :
  column (normalize_columns (rename rename_map df)) "invoice_date" = Some dates →
  to_datetime w dates = inr dates' →
  clean w df s
  = (inr (cleaned df dates'),
     {| log := log s ++ [LogRecord INFO Date_transformed];
        processed := processed s;
        engine := engine s |}).
Proof.
  intros Hcol Hdates. destruct s as [lg pr en].
  unfold clean, getitem. run_task. rewrite Hcol. simpl. rewrite Hdates. by run_task.
Qed.

Lemma load_table_accepted (w : world) (t : table) (name : string)
    (dtypes : list (string * Sql.type)) (s : task_state) :
  to_sql w name t dtypes = None →
  load_table w t name dtypes s
  = (inr (),
     {| log := log s ++ [LogRecord INFO (Loading_table name (table_len t))];
        processed := <[name := t]> (processed s);
        engine := engine s |}).
Proof.
  intros Hsql. destruct s as [lg pr en].
  unfold load_table. run_task. rewrite Hsql. by run_task.
Qed.

Lemma load_accepted (w : world) (t : star_schema) (s : task_state) :
  (∀ name t dtypes, to_sql w name t dtypes = None) →
  (load w t s).1 = inr ()
  ∧ processed (load w t s).2 = apply_writes (tables_of t) (processed s)
  ∧ last (log (load w t s).2) = Some (LogRecord INFO All_tables_loaded).
Proof.
  intros Hsql. unfold load.
  do 7 (erewrite bind_returns; [|by apply load_table_accepted]).
  unfold logger_info, logger. simpl. split; [done|]. split; [done|].
  apply last_snoc.
Qed.

Lemma try_block_success (w : world) (df : dataframe) (dates dates' : list cell)
    (s : task_state) :
  create_engine w = None → connect w = None → read_sql_table w = inr df →
  column (normalize_columns (rename rename_map df)) "invoice_date" = Some dates →
  to_datetime w dates = inr dates' →
  missing_columns (normalize_columns (rename rename_map df)) required_columns = [] →
  (∀ name t dtypes, to_sql w name t dtypes = None) →
  (try_block w s).1 = inr ()
  ∧ processed (try_block w s).2
    = apply_writes (tables_of (transform (records (cleaned df dates')))) (processed s)
  ∧ last (log (try_block w s).2) = Some (LogRecord INFO All_tables_loaded).
Proof.
  intros Hengine Hconnect Hread Hcol Hdates Hmiss Hsql. unfold try_block.
  erewrite bind_returns; [|by apply read_raw_connected].
  erewrite bind_returns; [|by eapply clean_converted].
  erewrite bind_returns;
    [|unfold lift; rewrite normalize_complete;
      [reflexivity|unfold cleaned; by rewrite missing_columns_set_column]].
  erewrite bind_returns; [|reflexivity].
  cbn [log processed engine].
  match goal with
  | |- context [load w ?t ?st] =>
      destruct (load_accepted w t st Hsql) as (Hr & Hpr & Hlog)
  end.
  by rewrite Hr, Hpr, Hlog.
Qed.

Lemma transform_data_success (w : world) (df : dataframe)
    (dates dates' : list cell) (s : task_state) :
  create_engine w = None → connect w = None → read_sql_table w = inr df →
  column (normalize_columns (rename rename_map df)) "invoice_date" = Some dates →
  to_datetime w dates = inr dates' →
  missing_columns (normalize_columns (rename rename_map df)) required_columns = [] →
  (∀ name t dtypes, to_sql w name t dtypes = None) →
  processed (transform_data w s).2
  = apply_writes (tables_of (transform (records (cleaned df dates')))) (processed s)
  ∧ last (log (transform_data w s).2) = Some (LogRecord INFO All_tables_loaded).
Proof.
  intros Hengine Hconnect Hread Hcol Hdates Hmiss Hsql.
  destruct (try_block_success w df dates dates' (enter s)
              Hengine Hconnect Hread Hcol Hdates Hmiss Hsql) as (Hr & Hpr & Hlog).
  rewrite transform_data_unfold. cbv zeta.
  destruct (try_block w (enter s)) as [r st]. simpl in *. subst r.
  by rewrite app_nil_r.
Qed.

(** ** The product dimension *)

Lemma fmap_filter {A B} (h : A → B) (Q : B → Prop) `{!∀ y, Decision (Q y)}
    (df : list A) :
  h <$> filter (λ x, Q (h x)) df = filter Q (h <$> df).
Proof.
  induction df as [|x df IH]; [done|].
  rewrite fmap_cons, !filter_cons.
  destruct (decide (Q (h x))); [rewrite fmap_cons|]; by rewrite IH.
Qed.

Lemma head_filter_find {A} (P : A → Prop) `{!∀ x, Decision (P x)} (df : list A)
    (i : nat) (x : A) :
  list_find P df = Some (i, x) → head (filter P df) = Some x.
Proof.
  revert i. induction df as [|y df IH]; intros i; [done|].
  simpl. rewrite filter_cons. destruct (decide (P y)) as [Hy|Hy].
  - by intros [= _ ->].
  - intros ([j z] & Hfind & [= _ ->])%fmap_Some. by apply (IH j).
Qed.

(** The rows of the product dimension with a given name: one, made of the
    first input row that has this product. *)
Lemma matches_dim_product (df : list row) (p : cell) (i : nat) (r : row) :
  list_find (λ x, product x = p) df = Some (i, r) →
  ∃ id, matches pr_product_name p (dim_product df)
        = [ProductRow p (price_per_unit r) id].
Proof.
  intros Hfind.
  assert (Hp : product r = p) by (by apply list_find_Some in Hfind as (_ & ? & _)).
  apply head_filter_find in Hfind.
  pose (h := λ y : product_row, (pr_product_name y, pr_price_per_unit y)).
  assert (Hh : h <$> matches pr_product_name p (dim_product df)
               = [(p, price_per_unit r)]).
  { unfold matches.
    etrans; [exact (fmap_filter h (λ q, q.1 = p) (dim_product df))|].
    unfold dim_product.
    rewrite (column_index_plus_one _ h id) by (by intros ? [? ?]).
    rewrite list_fmap_id, filter_drop_duplicates.
    etrans; [apply (f_equal (λ l, option_list (head l)));
             symmetry;
             exact (fmap_filter (λ x, (product x, price_per_unit x))
                      (λ q, q.1 = p) df)|].
    simpl. destruct (filter (λ x, product x = p) df) as [|r' rest]; [done|].
    simpl in *. injection Hfind as ->. by rewrite Hp. }
  destruct (matches pr_product_name p (dim_product df)) as [|[n v id] [|? ?]];
    try done.
  injection Hh as -> ->. by exists id.
Qed.

(** C8, as the task has it: a product name has exactly one row in the
    product dimension, with the price of the first input row that has this
    product, whatever the prices of the later rows; the task logs no warning,
    for this or anything else, and the call returns. *)
Theorem product_first_price (df : list row) (p : cell) (i : nat) (r : row) :
  list_find (λ x, product x = p) df = Some (i, r) →
  (∃ id, matches pr_product_name p (dim_product df)
         = [ProductRow p (price_per_unit r) id])
  ∧ (∀ w s, (transform_data w s).1 = inr ()
            ∧ ∃ l, log (transform_data w s).2 = log s ++ l
                   ∧ Forall (λ x, levelname x ≠ WARNING) l).
Proof.
  intros Hfind. split; [by apply (matches_dim_product df p i r)|].
  intros w s. destruct (transform_data_effect w) as (l & ws & Hl & H).
  rewrite H. split; [done|]. by exists l.
Qed.

Lemma product_first_price_witness :
  list_find (λ x, product x = Str "Shoes") conflict_df
  = Some (0%nat, sale "Retailer A" "1" "East" "NY" "NYC" "Shoes" 50 10 "Online")
  ∧ (∃ id, matches pr_product_name (Str "Shoes") (dim_product conflict_df)
           = [ProductRow (Str "Shoes") (Int 50) id])
  ∧ (∀ w s, (transform_data w s).1 = inr ()
            ∧ ∃ l, log (transform_data w s).2 = log s ++ l
                   ∧ Forall (λ x, levelname x ≠ WARNING) l).
Proof.
  split; [reflexivity|].
  exact (product_first_price conflict_df (Str "Shoes") 0
           (sale "Retailer A" "1" "East" "NY" "NYC" "Shoes" 50 10 "Online")
           eq_refl).
Defined.

(** C8 as stated fails: Shoes at 50 and then at 55 gives the one row at 50,
    and the run that loads it logs no warning. *)
Lemma price_conflict_not_logged :
  dim_product conflict_df = [ProductRow (Str "Shoes") (Int 50) 1]
  ∧ ¬ (∃ x, x ∈ log (transform_data (fair_world (raw_frame conflict_df))
                       initial_state).2
            ∧ levelname x = WARNING).
Proof.
  split; [by vm_compute|].
  intros (x & Hx & Hw).
  destruct (transform_data_effect (fair_world (raw_frame conflict_df)))
    as (l & ws & Hl & H).
  rewrite H in Hx. simpl in Hx. rewrite Forall_forall in Hl. by apply (Hl x).
Qed.

(** ** When does every lookup resolve?

    The city, product and sales-method dimensions are keyed by what the fact
    build looks up, so these lookups find exactly one row for every input.
    The state dimension is keyed by state name and region, and looked up by
    state name: the lookup finds exactly one row when no state name is
    shared by two regions. *)

Lemma matches_absent {R K} `{!EqDecision K} (f : R → K) (k : K) (right : list R) :
  k ∉ f <$> right → matches f k right = [].
Proof.
  intros Hk. unfold matches. induction right as [|y right IH]; [done|].
  rewrite fmap_cons, not_elem_of_cons in Hk. destruct Hk as [Hne Hk].
  rewrite filter_cons_False by done. by apply IH.
Qed.

Lemma matches_NoDup_key {R K} `{!EqDecision K} (f : R → K) (right : list R) (x : R) :
  NoDup (f <$> right) → x ∈ right → matches f (f x) right = [x].
Proof.
  unfold matches. induction right as [|y right IH]; intros Hnd Hx.
  - by apply elem_of_nil in Hx.
  - rewrite fmap_cons in Hnd. apply NoDup_cons in Hnd as [Hy Hnd].
    apply elem_of_cons in Hx as [->|Hx].
    + rewrite filter_cons_True by done. f_equal. by apply matches_absent.
    + rewrite filter_cons_False; [by apply IH|].
      intros Heq. apply Hy. rewrite Heq. by apply list_elem_of_fmap_2.
Qed.

Lemma resolves_NoDup_key {A R K} `{!EqDecision K} (left_on : A → K)
    (right_on : R → K) (right : list R) (l : A) (x : R) :
  NoDup (right_on <$> right) → x ∈ right → right_on x = left_on l →
  resolves left_on right_on right l.
Proof.
  intros Hnd Hx Hkey. unfold resolves. rewrite <- Hkey.
  by rewrite matches_NoDup_key.
Qed.

Lemma NoDup_fmap_elem {A B} (f : A → B) (df : list A) (x y : A) :
  NoDup (f <$> df) → x ∈ df → y ∈ df → f x = f y → x = y.
Proof.
  induction df as [|z df IH]; intros Hnd Hx Hy Heq.
  - by apply elem_of_nil in Hx.
  - rewrite fmap_cons in Hnd. apply NoDup_cons in Hnd as [Hz Hnd].
    apply elem_of_cons in Hx as [->|Hx]; apply elem_of_cons in Hy as [->|Hy].
    + done.
    + destruct Hz. rewrite Heq. by apply list_elem_of_fmap_2.
    + destruct Hz. rewrite <- Heq. by apply list_elem_of_fmap_2.
    + by apply IH.
Qed.

(** Natural keys are unique within each dimension table. *)
Lemma natural_keys_unique (df : list row) :
  NoDup (rg_region_name <$> dim_region df)
  ∧ NoDup ((λ x, (st_state_name x, st_region_id x)) <$> dim_state df)
  ∧ NoDup (city_right_on <$> dim_city df)
  ∧ NoDup (pr_product_name <$> dim_product df)
  ∧ NoDup (sm_method_name <$> dim_sales_method df).
Proof.
  unfold dim_region, dim_state, dim_city, dim_product, dim_sales_method.
  split; [|split; [|split; [|split]]].
  - rewrite (column_index_plus_one _ rg_region_name id) by done.
    apply NoDup_drop_duplicates.
  - rewrite (column_index_plus_one _ _ id) by (by intros ? [? ?]).
    apply NoDup_drop_duplicates.
  - rewrite (column_index_plus_one _ city_right_on id) by (by intros ? [? ?]).
    apply NoDup_drop_duplicates.
  - rewrite (column_index_plus_one _ pr_product_name fst) by done.
    apply NoDup_drop_duplicates.
  - rewrite (column_index_plus_one _ sm_method_name id) by done.
    apply NoDup_drop_duplicates.
Qed.

Lemma NoDup_dim_state (df : list row) : NoDup (dim_state df).
Proof.
  apply (NoDup_fmap_1 st_state_id).
  destruct (surrogate_keys_contiguous df) as (_ & -> & _). apply NoDup_seqZ.
Qed.

(** With state names scoped to one region, a state name has one row in the
    state dimension. *)
Lemma state_resolves (df : list row) (r : row) :
  state_scoped df → r ∈ df → resolves state st_state_name (dim_state df) r.
Proof.
  intros Hscoped Hr. unfold resolves.
  destruct (state_matched df r Hr) as (x & g & Hx & Hg & Hname & Hgname & Hid).
  assert (Hall : ∀ y, y ∈ matches st_state_name (state r) (dim_state df) → y = x).
  { intros y [Hyname Hy]%elem_of_matches.
    destruct (elem_of_dim_state df y Hy) as (r' & g' & Hr' & Hg' & Hg'n & Hyn & Hyid).
    assert (region r' = region r) as Hreg
      by (apply Hscoped; [done|done|congruence]).
    assert (g' = g) as ->.
    { destruct (natural_keys_unique df) as (Hnd & _).
      apply (NoDup_fmap_elem rg_region_name (dim_region df)); [done..|congruence]. }
    destruct (natural_keys_unique df) as (_ & Hnd & _).
    apply (NoDup_fmap_elem _ (dim_state df) y x Hnd Hy Hx). congruence. }
  assert (Hnd : NoDup (matches st_state_name (state r) (dim_state df)))
    by apply NoDup_filter, NoDup_dim_state.
  assert (Hin : x ∈ matches st_state_name (state r) (dim_state df))
    by by apply elem_of_matches.
  destruct (matches st_state_name (state r) (dim_state df)) as [|a [|b rest]].
  - by apply elem_of_nil in Hin.
  - done.
  - exfalso. apply NoDup_cons in Hnd as [Hab _]. apply Hab.
    rewrite (Hall a), (Hall b) by set_solver. set_solver.
Qed.

(** The hypothesis of row-count preservation holds for every frame whose
    state names are scoped to one region. *)
Lemma scoped_zero_unresolved (df : list row) :
  state_scoped df → zero_unresolved df.
Proof.
  intros Hscoped.
  destruct (natural_keys_unique df) as (_ & _ & Hcity & Hproduct & Hmethod).
  unfold zero_unresolved, merge_product, merge_city, merge_state.
  split; [|split; [|split]]; apply Forall_forall.
  - intros r Hr. by apply state_resolves.
  - intros [r s] [Hr Hs]%elem_of_merge_left.
    destruct (state_matched df r Hr) as (x & g & Hx & _ & Hname & _ & _).
    destruct s as [x'|];
      [|by destruct (matches_nonempty st_state_name (state r) (dim_state df) x)].
    destruct Hs as [Hname' Hx'].
    destruct (city_matched df r x' Hr Hx' Hname') as (c & Hc & Hkey).
    by apply (resolves_NoDup_key _ _ _ _ c).
  - intros [[r s] c] [[Hr _]%elem_of_merge_left _]%elem_of_merge_left.
    destruct (product_matched df r Hr) as (p & Hp & Hkey).
    by apply (resolves_NoDup_key _ _ _ _ p).
  - intros [[[r s] c] p]
      [[[Hr _]%elem_of_merge_left _]%elem_of_merge_left _]%elem_of_merge_left.
    destruct (sales_method_matched df r Hr) as (m & Hm & Hkey).
    by apply (resolves_NoDup_key _ _ _ _ m).
Qed.

(** At [twin_df] the lookup of the state is not resolved: Springfield has
    two rows in the state dimension. *)
Lemma twin_states_unresolved : ¬ zero_unresolved twin_df.
Proof.
  intros (Hstate & _). apply Forall_cons in Hstate as [Hfirst _].
  unfold resolves in Hfirst. by vm_compute in Hfirst.
Qed.

(** ** From the raw table to the rows *)

(** The columns of the raw table as [load_task] writes it, after the
    renaming and the normalization of the names. *)
Lemma columns_raw_frame (rows : list row) :
  let df := cleaned (raw_frame rows) (invoice_date <$> rows) in
  column df "retailer" = Some (retailer <$> rows)
  ∧ column df "retailer_id" = Some (retailer_id <$> rows)
  ∧ column df "invoice_date" = Some (invoice_date <$> rows)
  ∧ column df "region" = Some (region <$> rows)
  ∧ column df "state" = Some (state <$> rows)
  ∧ column df "city" = Some (city <$> rows)
  ∧ column df "product" = Some (product <$> rows)
  ∧ column df "price_per_unit" = Some (price_per_unit <$> rows)
  ∧ column df "units_sold" = Some (units_sold <$> rows)
  ∧ column df "total_sales" = Some (total_sales <$> rows)
  ∧ column df "operating_profit" = Some (operating_profit <$> rows)
  ∧ column df "operating_margin" = Some (operating_margin <$> rows)
  ∧ column df "sales_method" = Some (sales_method <$> rows).
Proof. by vm_compute. Qed.

Lemma cell_at_column (df : dataframe) (name : string) (rows : list row)
    (f : row → cell) (i : nat) (r : row) :
  column df name = Some (f <$> rows) → rows !! i = Some r →
  cell_at df name i = f r.
Proof.
  intros Hcol Hr. unfold cell_at. rewrite Hcol. simpl.
  by rewrite list_lookup_fmap, Hr.
Qed.

(** The rows the task works on are the rows of the raw table. *)
Lemma records_raw_frame (rows : list row) :
  records (cleaned (raw_frame rows) (invoice_date <$> rows)) = rows.
Proof.
  pose proof (columns_raw_frame rows) as Hcols. simpl in Hcols.
  destruct Hcols as (H1 & H2 & H3 & H4 & H5 & H6 & H7 & H8 & H9 & H10 & H11
                     & H12 & H13).
  unfold records. change (nrows (cleaned _ _)) with (length rows).
  apply list_eq. intros i. rewrite list_lookup_fmap.
  destruct (rows !! i) as [r|] eqn:Hr.
  - rewrite lookup_seq_lt by (by eapply lookup_lt_Some). simpl. f_equal.
    rewrite (cell_at_column _ _ rows retailer i r H1 Hr),
      (cell_at_column _ _ rows retailer_id i r H2 Hr),
      (cell_at_column _ _ rows invoice_date i r H3 Hr),
      (cell_at_column _ _ rows region i r H4 Hr),
      (cell_at_column _ _ rows state i r H5 Hr),
      (cell_at_column _ _ rows city i r H6 Hr),
      (cell_at_column _ _ rows product i r H7 Hr),
      (cell_at_column _ _ rows price_per_unit i r H8 Hr),
      (cell_at_column _ _ rows units_sold i r H9 Hr),
      (cell_at_column _ _ rows total_sales i r H10 Hr),
      (cell_at_column _ _ rows operating_profit i r H11 Hr),
      (cell_at_column _ _ rows operating_margin i r H12 Hr),
      (cell_at_column _ _ rows sales_method i r H13 Hr).
    by destruct r.
  - rewrite lookup_seq_ge by (by apply lookup_ge_None). done.
Qed.

(** In a world where everything succeeds the task stores the star schema
    of the rows of the raw table. *)
Lemma transform_data_fair (rows : list row) (s : task_state) :
  processed (transform_data (fair_world (raw_frame rows)) s).2
  = apply_writes (tables_of (transform rows)) (processed s).
Proof.
  assert (Hcol : column (normalize_columns (rename rename_map (raw_frame rows)))
                   "invoice_date" = Some (invoice_date <$> rows))
    by (vm_compute; reflexivity).
  assert (Hmiss : missing_columns
                    (normalize_columns (rename rename_map (raw_frame rows)))
                    required_columns = [])
    by (vm_compute; reflexivity).
  destruct (transform_data_success (fair_world (raw_frame rows)) (raw_frame rows)
              (invoice_date <$> rows) (invoice_date <$> rows) s
              eq_refl eq_refl eq_refl Hcol eq_refl Hmiss (λ _ _ _, eq_refl))
    as [Hpr _].
  rewrite Hpr, records_raw_frame. reflexivity.
Qed.

(** ** The size of the state dimension *)

Lemma drop_duplicates_from_NoDup {A K} `{!EqDecision K} (key : A → K)
    (seen : list K) (df : list A) :
  NoDup (key <$> df) → (∀ x, x ∈ df → key x ∉ seen) →
  drop_duplicates_from key seen df = df.
Proof.
  revert seen. induction df as [|x df IH]; intros seen Hnd Hseen; [done|].
  rewrite fmap_cons in Hnd. apply NoDup_cons in Hnd as [Hx Hnd]. simpl.
  rewrite decide_False by (apply Hseen; left).
  f_equal. apply IH; [done|]. intros y Hy Hin.
  apply elem_of_cons in Hin as [Heq|Hin].
  - apply Hx. rewrite <- Heq. by apply list_elem_of_fmap_2.
  - apply (Hseen y); [by right|done].
Qed.

Lemma drop_duplicates_NoDup {A K} `{!EqDecision K} (key : A → K) (df : list A) :
  NoDup (key <$> df) → drop_duplicates key df = df.
Proof.
  intros Hnd. apply drop_duplicates_from_NoDup; [done|].
  intros x _ Hx. by apply elem_of_nil in Hx.
Qed.

(** Every (state, region) pair of the input finds its region. *)
Lemma df_state_prep_matched (df : list row) (s g : cell) (o : option region_row) :
  ((s, g), o) ∈ df_state_prep df →
  ∃ x, o = Some x ∧ x ∈ dim_region df ∧ rg_region_name x = g.
Proof.
  unfold df_state_prep. intros [Hsg Ho]%elem_of_merge_left.
  apply elem_of_drop_duplicates in Hsg.
  apply list_elem_of_fmap in Hsg as (r & [= -> ->] & Hr).
  destruct o as [x|]; simpl in *.
  - destruct Ho as [Hname Hx]. by exists x.
  - destruct (region_matched df r Hr) as (x & Hx & Hname).
    by destruct (matches_nonempty rg_region_name (region r) (dim_region df) x).
Qed.

Lemma df_state_prep_pairs (df : list row) :
  fst <$> df_state_prep df
  = drop_duplicates id ((λ r, (state r, region r)) <$> df).
Proof.
  unfold df_state_prep. apply merge_left_resolved, Forall_forall.
  intros [s g] Hsg. apply elem_of_drop_duplicates in Hsg.
  apply list_elem_of_fmap in Hsg as (r & [= -> ->] & Hr).
  destruct (region_matched df r Hr) as (x & Hx & Hname).
  destruct (natural_keys_unique df) as (Hnd & _).
  by apply (resolves_NoDup_key _ _ _ _ x).
Qed.

(** State: K is the number of distinct (state, region) pairs of the input. *)
Lemma dim_state_size (df : list row) :
  length (dim_state df)
  = length (remove_dups ((λ r, (state r, region r)) <$> df)).
Proof.
  unfold dim_state. rewrite length_index_plus_one.
  rewrite drop_duplicates_NoDup.
  - rewrite length_fmap, <- (length_fmap fst), df_state_prep_pairs.
    by rewrite length_drop_duplicates, list_fmap_id.
  - rewrite list_fmap_id. apply NoDup_fmap_2_strong.
    + intros [[s1 g1] o1] [[s2 g2] o2] H1 H2 [= -> Hid].
      apply df_state_prep_matched in H1 as (x1 & -> & Hx1 & <-).
      apply df_state_prep_matched in H2 as (x2 & -> & Hx2 & <-).
      injection Hid as Hid.
      by rewrite (dim_region_id_inj df x1 x2 Hx1 Hx2 Hid).
    + apply (NoDup_fmap_1 fst). rewrite df_state_prep_pairs.
      rewrite <- (list_fmap_id (drop_duplicates _ _)).
      apply NoDup_drop_duplicates.
Qed.

(** * Further properties of the transformation *)

(** ** Where the rows of the tables come from *)

(** A row of the city dimension is a city of some input row, under a row of
    the state dimension that has the name of that input row's state. *)
Lemma elem_of_dim_city (df : list row) (c : city_row) :
  c ∈ dim_city df →
  ∃ r x, r ∈ df ∧ x ∈ dim_state df ∧ st_state_name x = state r
         ∧ ct_city_name c = city r ∧ ct_state_id c = Some (st_state_id x).
Proof.
  unfold dim_city. intros (i & p & Hp & ->)%elem_of_index_plus_one.
  apply list_elem_of_lookup_2 in Hp. apply elem_of_drop_duplicates in Hp.
  apply list_elem_of_fmap in Hp as ([[cn sn] o] & -> & Hq).
  unfold df_city_prep in Hq. apply elem_of_merge_left in Hq as [Hcs Ho].
  apply elem_of_drop_duplicates in Hcs.
  apply list_elem_of_fmap in Hcs as (r & [= -> ->] & Hr).
  destruct o as [x|]; simpl in *.
  - destruct Ho as [Hname Hx]. by exists r, x.
  - destruct (state_matched df r Hr) as (x & g & Hx & _ & Hname & _).
    by destruct (matches_nonempty st_state_name (state r) (dim_state df) x).
Qed.

Lemma elem_of_dim_product (df : list row) (p : product_row) :
  p ∈ dim_product df →
  ∃ r, r ∈ df ∧ pr_product_name p = product r
       ∧ pr_price_per_unit p = price_per_unit r.
Proof.
  unfold dim_product. intros (i & q & Hq & ->)%elem_of_index_plus_one.
  apply list_elem_of_lookup_2 in Hq. apply elem_of_drop_duplicates in Hq.
  apply list_elem_of_fmap in Hq as (r & -> & Hr). by exists r.
Qed.

Lemma elem_of_dim_region (df : list row) (g : region_row) :
  g ∈ dim_region df → ∃ r, r ∈ df ∧ rg_region_name g = region r.
Proof.
  unfold dim_region. intros (i & q & Hq & ->)%elem_of_index_plus_one.
  apply list_elem_of_lookup_2 in Hq. apply elem_of_drop_duplicates in Hq.
  apply list_elem_of_fmap in Hq as (r & -> & Hr). by exists r.
Qed.

Lemma elem_of_dim_sales_method (df : list row) (m : sales_method_row) :
  m ∈ dim_sales_method df → ∃ r, r ∈ df ∧ sm_method_name m = sales_method r.
Proof.
  unfold dim_sales_method. intros (i & q & Hq & ->)%elem_of_index_plus_one.
  apply list_elem_of_lookup_2 in Hq. apply elem_of_drop_duplicates in Hq.
  apply list_elem_of_fmap in Hq as (r & -> & Hr). by exists r.
Qed.

(** A row of the joined frame of the task: an input row with the rows the
    four merges found for it. *)
Lemma elem_of_fact_df (df : list row) (j : joined) :
  j ∈ fact_df df (dim_state df) (dim_city df) (dim_product df)
        (dim_sales_method df) →
  ∃ r x c p m,
    j = ((((r, Some x), Some c), Some p), Some m)
    ∧ r ∈ df
    ∧ x ∈ dim_state df ∧ st_state_name x = state r
    ∧ c ∈ dim_city df ∧ ct_city_name c = city r
    ∧ ct_state_id c = Some (st_state_id x)
    ∧ p ∈ dim_product df ∧ pr_product_name p = product r
    ∧ m ∈ dim_sales_method df ∧ sm_method_name m = sales_method r.
Proof.
  destruct j as [[[[r s] c] p] m].
  unfold fact_df, merge_sales_method, merge_product, merge_city, merge_state.
  intros [Hj Hm]%elem_of_merge_left.
  apply elem_of_merge_left in Hj as [Hj Hp].
  apply elem_of_merge_left in Hj as [Hj Hc].
  apply elem_of_merge_left in Hj as [Hr Hs].
  destruct (state_matched df r Hr) as (x0 & g & Hx0 & _ & Hname0 & _).
  destruct s as [x|];
    [|by destruct (matches_nonempty st_state_name (state r) (dim_state df) x0)].
  destruct Hs as [Hname Hx].
  destruct (city_matched df r x Hr Hx Hname) as (c0 & Hc0 & Hkey0).
  destruct c as [c|];
    [|by destruct (matches_nonempty city_right_on
                     (city_left_on (r, Some x)) (dim_city df) c0)].
  destruct Hc as [Hckey Hc]. injection Hckey as Hcname Hcstate.
  destruct (product_matched df r Hr) as (p0 & Hp0 & Hpn0).
  destruct p as [p|];
    [|by destruct (matches_nonempty pr_product_name (product r)
                     (dim_product df) p0)].
  destruct Hp as [Hpname Hp].
  destruct (sales_method_matched df r Hr) as (m0 & Hm0 & Hmn0).
  destruct m as [m|];
    [|by destruct (matches_nonempty sm_method_name (sales_method r)
                     (dim_sales_method df) m0)].
  destruct Hm as [Hmname Hm].
  exists r, x, c, p, m. by repeat split.
Qed.

(** X1 (referential integrity and lookup by name): every row of the fact
    table is made from one input row; it copies that row's measures and its
    retailer identifier, which is an identifier of the retailer dimension;
    its product, sales-method and city identifiers are those of rows of the
    dimensions that carry the input row's product, sales method and city;
    the city row is under a row of the state dimension that has the input
    row's state name, and the region identifier of the fact row is the one
    of that state row. *)
Theorem fact_rows_resolved (df : list row) :
  Forall
    (λ f, ∃ r x c p m,
       r ∈ df ∧ fact_measures f = measures r
       ∧ f_retailer_id f ∈ rt_retailer_id <$> dim_retailer df
       ∧ x ∈ dim_state df ∧ st_state_name x = state r
       ∧ f_region_id f = st_region_id x
       ∧ c ∈ dim_city df ∧ ct_city_name c = city r
       ∧ ct_state_id c = Some (st_state_id x)
       ∧ f_city_id f = Some (ct_city_id c)
       ∧ p ∈ dim_product df ∧ pr_product_name p = product r
       ∧ f_product_id f = Some (pr_product_id p)
       ∧ m ∈ dim_sales_method df ∧ sm_method_name m = sales_method r
       ∧ f_sales_method_id f = Some (sm_sales_method_id m))
    (fact_table df).
Proof.
  apply Forall_forall. intros f (i & j & Hj & ->)%elem_of_fact_table_of.
  apply list_elem_of_lookup_2, elem_of_fact_df in Hj
    as (r & x & c & p & m & -> & Hr & Hx & Hxn & Hc & Hcn & Hcs & Hp & Hpn
        & Hm & Hmn).
  exists r, x, c, p, m. simpl. repeat split; try done.
  apply retailer_keys. by apply list_elem_of_fmap_2.
Qed.

(** X2 (the hierarchy is closed): the region identifier of every row of the
    state dimension is the identifier of a row of the region dimension, the
    one of the region of an input row with this state; the state identifier
    of every row of the city dimension is the identifier of a row of the
    state dimension, which has the state name of an input row with this
    city. *)
Theorem dimension_hierarchy_closed (df : list row) :
  Forall (λ x, ∃ r g, r ∈ df ∧ g ∈ dim_region df
                      ∧ rg_region_name g = region r
                      ∧ st_state_name x = state r
                      ∧ st_region_id x = Some (rg_region_id g))
    (dim_state df)
  ∧ Forall (λ c, ∃ r x, r ∈ df ∧ x ∈ dim_state df
                        ∧ st_state_name x = state r
                        ∧ ct_city_name c = city r
                        ∧ ct_state_id c = Some (st_state_id x))
      (dim_city df).
Proof.
  split; apply Forall_forall.
  - intros x Hx. by apply elem_of_dim_state.
  - intros c Hc. by apply elem_of_dim_city.
Qed.

(** X3 (nothing invented, nothing lost): the names in the region, state,
    city, product and sales-method dimensions are exactly the names that
    occur in the input, and the rows of the retailer dimension are exactly
    the (identifier, name) pairs of the input, each once. *)
Theorem dimension_names (df : list row) :
  (∀ k, k ∈ rg_region_name <$> dim_region df ↔ k ∈ region <$> df)
  ∧ (∀ k, k ∈ st_state_name <$> dim_state df ↔ k ∈ state <$> df)
  ∧ (∀ k, k ∈ ct_city_name <$> dim_city df ↔ k ∈ city <$> df)
  ∧ (∀ k, k ∈ pr_product_name <$> dim_product df ↔ k ∈ product <$> df)
  ∧ (∀ k, k ∈ sm_method_name <$> dim_sales_method df ↔ k ∈ sales_method <$> df)
  ∧ (∀ i n, RetailerRow i n ∈ dim_retailer df
            ↔ (i, n) ∈ (λ r, (retailer_id r, retailer r)) <$> df)
  ∧ NoDup (dim_retailer df).
Proof.
  split; [|split; [|split; [|split; [|split; [|split]]]]].
  - intros k. rewrite !list_elem_of_fmap. split.
    + intros (g & -> & (r & Hr & ->)%elem_of_dim_region). by exists r.
    + intros (r & -> & Hr). destruct (region_matched df r Hr) as (g & Hg & Hn).
      by exists g.
  - intros k. rewrite !list_elem_of_fmap. split.
    + intros (x & -> & (r & g & Hr & _ & _ & -> & _)%elem_of_dim_state).
      by exists r.
    + intros (r & -> & Hr).
      destruct (state_matched df r Hr) as (x & g & Hx & _ & Hn & _).
      by exists x.
  - intros k. rewrite !list_elem_of_fmap. split.
    + intros (c & -> & (r & x & Hr & _ & _ & -> & _)%elem_of_dim_city).
      by exists r.
    + intros (r & -> & Hr).
      destruct (state_matched df r Hr) as (x & g & Hx & _ & Hn & _).
      destruct (city_matched df r x Hr Hx Hn) as (c & Hc & [= Hcn _]).
      by exists c.
  - intros k. rewrite !list_elem_of_fmap. split.
    + intros (p & -> & (r & Hr & -> & _)%elem_of_dim_product). by exists r.
    + intros (r & -> & Hr). destruct (product_matched df r Hr) as (p & Hp & Hn).
      by exists p.
  - intros k. rewrite !list_elem_of_fmap. split.
    + intros (m & -> & (r & Hr & ->)%elem_of_dim_sales_method). by exists r.
    + intros (r & -> & Hr).
      destruct (sales_method_matched df r Hr) as (m & Hm & Hn). by exists m.
  - intros i n. unfold dim_retailer. rewrite list_elem_of_fmap. split.
    + intros ([i' n'] & [= -> ->] & Hp). by apply elem_of_drop_duplicates in Hp.
    + intros Hp. exists (i, n). split; [done|].
      by apply elem_of_drop_duplicates_id.
  - unfold dim_retailer. apply NoDup_fmap_2.
    + by intros [i n] [i' n'] [= -> ->].
    + rewrite <- (list_fmap_id (drop_duplicates _ _)).
      apply NoDup_drop_duplicates.
Qed.

(** ** The number of fact rows *)

Lemma length_merge_row {A R K} `{!EqDecision K} (right_on : R → K)
    (right : list R) (k : K) (l : A) :
  matches right_on k right ≠ [] →
  length (merge_row right_on right k l) = length (matches right_on k right).
Proof.
  unfold merge_row. destruct (matches right_on k right); [done|].
  intros _. by rewrite length_fmap.
Qed.

Lemma length_merge_left {A R K} `{!EqDecision K} (left_on : A → K)
    (right_on : R → K) (left : list A) (right : list R) :
  Forall (λ l, matches right_on (left_on l) right ≠ []) left →
  length (merge_left left_on right_on left right)
  = sum_list ((λ l, length (matches right_on (left_on l) right)) <$> left).
Proof.
  unfold merge_left. induction 1 as [|l left Hl _ IH]; [done|].
  rewrite bind_cons, length_app, IH, length_merge_row by done. done.
Qed.

Lemma length_merge_left_resolved {A R K} `{!EqDecision K} (left_on : A → K)
    (right_on : R → K) (left : list A) (right : list R) :
  Forall (resolves left_on right_on right) left →
  length (merge_left left_on right_on left right) = length left.
Proof.
  intros H. pose proof (merge_left_resolved left_on right_on left right H) as E.
  apply (f_equal length) in E. by rewrite length_fmap in E.
Qed.

(** The lookups of the city, of the product and of the sales method resolve
    for every frame. *)
Lemma later_lookups_resolve (df : list row) :
  let by_state := merge_state df (dim_state df) in
  let by_city := merge_city by_state (dim_city df) in
  let by_product := merge_product by_city (dim_product df) in
  Forall (resolves city_left_on city_right_on (dim_city df)) by_state
  ∧ Forall (resolves product_left_on pr_product_name (dim_product df)) by_city
  ∧ Forall (resolves sales_method_left_on sm_method_name (dim_sales_method df))
      by_product.
Proof.
  destruct (natural_keys_unique df) as (_ & _ & Hcity & Hproduct & Hmethod).
  unfold merge_product, merge_city, merge_state.
  split; [|split]; apply Forall_forall.
  - intros [r s] [Hr Hs]%elem_of_merge_left.
    destruct (state_matched df r Hr) as (x & g & Hx & _ & Hname & _ & _).
    destruct s as [x'|];
      [|by destruct (matches_nonempty st_state_name (state r) (dim_state df) x)].
    destruct Hs as [Hname' Hx'].
    destruct (city_matched df r x' Hr Hx' Hname') as (c & Hc & Hkey).
    by apply (resolves_NoDup_key _ _ _ _ c).
  - intros [[r s] c] [[Hr _]%elem_of_merge_left _]%elem_of_merge_left.
    destruct (product_matched df r Hr) as (p & Hp & Hkey).
    by apply (resolves_NoDup_key _ _ _ _ p).
  - intros [[[r s] c] p]
      [[[Hr _]%elem_of_merge_left _]%elem_of_merge_left _]%elem_of_merge_left.
    destruct (sales_method_matched df r Hr) as (m & Hm & Hkey).
    by apply (resolves_NoDup_key _ _ _ _ m).
Qed.

Lemma length_le_sum_list {A} (f : A → nat) (l : list A) :
  Forall (λ x, (1 ≤ f x)%nat) l → (length l ≤ sum_list (f <$> l))%nat.
Proof.
  induction 1 as [|x l Hx _ IH]; [done|]. rewrite fmap_cons. simpl. lia.
Qed.

(** X4 (the fan-out of the state merge): for every input, each input row
    yields as many fact rows as the state dimension has rows with its state
    name, at least one; the later merges add and drop nothing. *)
Theorem fact_table_length (df : list row) :
  length (fact_table df)
  = sum_list ((λ r, length (matches st_state_name (state r) (dim_state df)))
                <$> df)
  ∧ (length df ≤ length (fact_table df))%nat.
Proof.
  destruct (later_lookups_resolve df) as (Hcity & Hproduct & Hmethod).
  assert (Hstate : Forall (λ r, matches st_state_name (state r) (dim_state df) ≠ [])
                     df).
  { apply Forall_forall. intros r Hr.
    destruct (state_matched df r Hr) as (x & g & Hx & _ & Hname & _).
    by apply (matches_nonempty _ _ _ x). }
  assert (Hlen : length (fact_table df)
                 = sum_list ((λ r, length (matches st_state_name (state r)
                                             (dim_state df))) <$> df)).
  { unfold fact_table, fact_table_of. rewrite length_index_plus_one.
    unfold fact_df, merge_sales_method, joined.
    rewrite length_merge_left_resolved by done.
    unfold merge_product. rewrite length_merge_left_resolved by done.
    unfold merge_city. rewrite length_merge_left_resolved by done.
    unfold merge_state. by apply length_merge_left. }
  split; [done|]. rewrite Hlen. apply length_le_sum_list.
  eapply Forall_impl; [exact Hstate|]. intros r Hr. simpl in Hr.
  destruct (matches st_state_name (state r) (dim_state df)); [done|].
  simpl. lia.
Qed.

(** ** Frames whose state names are scoped to one region *)

Lemma resolves_unique {A R K} `{!EqDecision K} (left_on : A → K)
    (right_on : R → K) (right : list R) (l : A) (x y : R) :
  resolves left_on right_on right l →
  x ∈ right → right_on x = left_on l → y ∈ right → right_on y = left_on l →
  x = y.
Proof.
  unfold resolves. intros Hone Hx Hkx Hy Hky.
  assert (x ∈ matches right_on (left_on l) right) as Hxm
    by by apply elem_of_matches.
  assert (y ∈ matches right_on (left_on l) right) as Hym
    by by apply elem_of_matches.
  destruct (matches right_on (left_on l) right) as [|a [|b rest]]; try done.
  apply list_elem_of_singleton in Hxm, Hym. congruence.
Qed.

(** X5 (correct parents for scoped input): when every state name of the
    input belongs to one region, the [i]-th row of the fact table is made
    from the [i]-th input row: it has the transaction identifier [i + 1]
    (rows counted from 0) and the row's measures, and its region, city,
    product and sales-method identifiers are those of the dimension rows of
    the row's own region, of its city under its state under that region, of
    its product and of its sales method. *)
Theorem scoped_fact_rows (df : list row) (i : nat) (r : row) :
  state_scoped df → df !! i = Some r →
  ∃ f g x c p m,
    fact_table df !! i = Some f
    ∧ transaction_id f = Z.of_nat i + 1
    ∧ fact_measures f = measures r
    ∧ g ∈ dim_region df ∧ rg_region_name g = region r
    ∧ f_region_id f = Some (rg_region_id g)
    ∧ x ∈ dim_state df ∧ st_state_name x = state r
    ∧ st_region_id x = Some (rg_region_id g)
    ∧ c ∈ dim_city df ∧ ct_city_name c = city r
    ∧ ct_state_id c = Some (st_state_id x)
    ∧ f_city_id f = Some (ct_city_id c)
    ∧ p ∈ dim_product df ∧ pr_product_name p = product r
    ∧ f_product_id f = Some (pr_product_id p)
    ∧ m ∈ dim_sales_method df ∧ sm_method_name m = sales_method r
    ∧ f_sales_method_id f = Some (sm_sales_method_id m).
Proof.
  intros Hscoped Hi.
  pose proof (source_fact_df_resolved df (scoped_zero_unresolved df Hscoped))
    as Hsrc.
  assert (Hr : r ∈ df) by by eapply list_elem_of_lookup_2.
  assert (∃ j, fact_df df (dim_state df) (dim_city df) (dim_product df)
                 (dim_sales_method df) !! i = Some j ∧ source j = r)
    as (j & Hj & Hjr).
  { rewrite <- Hsrc, list_lookup_fmap in Hi.
    apply fmap_Some in Hi as (j & Hj & ->). by exists j. }
  destruct (elem_of_fact_df df j (list_elem_of_lookup_2 _ _ _ Hj))
    as (r' & x & c & p & m & -> & _ & Hx & Hxn & Hc & Hcn & Hcs & Hp & Hpn
        & Hm & Hmn).
  unfold source in Hjr. simpl in Hjr. subst r'.
  destruct (state_matched df r Hr) as (x0 & g & Hx0 & Hg & Hx0n & Hgn & Hx0g).
  assert (x = x0) as ->
    by (by apply (resolves_unique state st_state_name (dim_state df) r);
          [apply state_resolves|..]).
  exists (select_fact (Z.of_nat i + 1) ((((r, Some x0), Some c), Some p), Some m)),
    g, x0, c, p, m.
  split.
  { unfold fact_table, fact_table_of, index_plus_one.
    by rewrite list_lookup_imap, Hj. }
  simpl. by repeat split.
Qed.

Lemma state_scoped_example : state_scoped example_df.
Proof.
  intros r1 r2 H1 H2 Hs. unfold example_df in *.
  rewrite !elem_of_cons, elem_of_nil in H1, H2.
  destruct H1 as [->|[->|[->|[]]]], H2 as [->|[->|[->|[]]]];
    first [reflexivity|discriminate Hs].
Defined.

Lemma scoped_fact_rows_witness :
  state_scoped example_df
  ∧ example_df !! 2%nat
    = Some (sale "Retailer B" "2" "West" "CA" "LA" "Shoes" 50 8 "Outlet")
  ∧ ∃ f g x c p m,
      fact_table example_df !! 2%nat = Some f
      ∧ transaction_id f = Z.of_nat 2 + 1
      ∧ fact_measures f
        = measures (sale "Retailer B" "2" "West" "CA" "LA" "Shoes" 50 8 "Outlet")
      ∧ g ∈ dim_region example_df ∧ rg_region_name g = Str "West"
      ∧ f_region_id f = Some (rg_region_id g)
      ∧ x ∈ dim_state example_df ∧ st_state_name x = Str "CA"
      ∧ st_region_id x = Some (rg_region_id g)
      ∧ c ∈ dim_city example_df ∧ ct_city_name c = Str "LA"
      ∧ ct_state_id c = Some (st_state_id x)
      ∧ f_city_id f = Some (ct_city_id c)
      ∧ p ∈ dim_product example_df ∧ pr_product_name p = Str "Shoes"
      ∧ f_product_id f = Some (pr_product_id p)
      ∧ m ∈ dim_sales_method example_df ∧ sm_method_name m = Str "Outlet"
      ∧ f_sales_method_id f = Some (sm_sales_method_id m).
Proof.
  split; [exact state_scoped_example|]. split; [reflexivity|].
  exact (scoped_fact_rows example_df 2
           (sale "Retailer B" "2" "West" "CA" "LA" "Shoes" 50 8 "Outlet")
           state_scoped_example eq_refl).
Defined.

(** ** Appending rows to the input *)

Lemma drop_duplicates_from_app {A K} `{!EqDecision K} (key : A → K)
    (seen : list K) (df more : list A) :
  drop_duplicates_from key seen df
  `prefix_of` drop_duplicates_from key seen (df ++ more).
Proof.
  revert seen. induction df as [|x df IH]; intros seen; simpl.
  - apply prefix_nil.
  - destruct (decide (key x ∈ seen)); [apply IH|].
    apply prefix_cons, IH.
Qed.

Lemma drop_duplicates_app {A K} `{!EqDecision K} (key : A → K) (df more : list A) :
  drop_duplicates key df `prefix_of` drop_duplicates key (df ++ more).
Proof. apply drop_duplicates_from_app. Qed.

Lemma index_plus_one_prefix {A B} (mk : Z → A → B) (df df' : list A) :
  df `prefix_of` df' → index_plus_one mk df `prefix_of` index_plus_one mk df'.
Proof.
  intros [k ->]. unfold index_plus_one. rewrite imap_app. by eexists.
Qed.

Lemma fmap_prefix {A B} (f : A → B) (df df' : list A) :
  df `prefix_of` df' → f <$> df `prefix_of` f <$> df'.
Proof. intros [k ->]. rewrite fmap_app. by eexists. Qed.

Lemma merge_left_prefix {A R K} `{!EqDecision K} (left_on : A → K)
    (right_on : R → K) (left left' : list A) (right : list R) :
  left `prefix_of` left' →
  merge_left left_on right_on left right
  `prefix_of` merge_left left_on right_on left' right.
Proof.
  intros [k ->]. unfold merge_left. rewrite bind_app. by eexists.
Qed.

(** A left merge reads of [right] only the matches of its left rows. *)
Lemma merge_left_ext {A R K} `{!EqDecision K} (left_on : A → K)
    (right_on : R → K) (left : list A) (right right' : list R) :
  (∀ l, l ∈ left →
        matches right_on (left_on l) right = matches right_on (left_on l) right') →
  merge_left left_on right_on left right = merge_left left_on right_on left right'.
Proof.
  unfold merge_left. induction left as [|l left IH]; intros Hsame; [done|].
  rewrite !bind_cons. f_equal.
  - unfold merge_row. rewrite Hsame; [done|left].
  - apply IH. intros l' Hl'. apply Hsame. by right.
Qed.

(** The state preparation of the longer input starts with the one of the
    shorter input. *)
Lemma df_state_prep_app (df more : list row) :
  df_state_prep df `prefix_of` df_state_prep (df ++ more).
Proof.
  unfold df_state_prep.
  assert (Hregion : dim_region df `prefix_of` dim_region (df ++ more)).
  { unfold dim_region. apply index_plus_one_prefix.
    rewrite fmap_app. apply drop_duplicates_app. }
  destruct Hregion as [extra Hextra].
  etrans; [|apply merge_left_prefix; rewrite fmap_app; apply drop_duplicates_app].
  rewrite Hextra.
  rewrite (merge_left_ext snd rg_region_name _ (dim_region df)
             (dim_region df ++ extra)); [done|].
  intros [s g] Hsg. simpl. unfold matches. rewrite filter_app.
  apply elem_of_drop_duplicates in Hsg.
  apply list_elem_of_fmap in Hsg as (r & [= -> ->] & Hr).
  destruct (region_matched df r Hr) as (x & Hx & Hname).
  assert (matches rg_region_name (region r) extra = []) as Hnone.
  { apply matches_absent. intros Hin.
    destruct (natural_keys_unique (df ++ more)) as (Hnd & _).
    rewrite Hextra, fmap_app in Hnd. apply NoDup_app in Hnd as (_ & Hdisj & _).
    apply (Hdisj (region r)); [|done].
    rewrite <- Hname. by apply list_elem_of_fmap_2. }
  unfold matches in Hnone. by rewrite Hnone, app_nil_r.
Qed.

(** X6 (keys survive an append): when rows are appended to the input, the
    retailer, region, state, product and sales-method dimensions of the
    longer input start with the tables of the shorter input: every row
    keeps its identifier, new rows come after. *)
Theorem dimensions_stable_under_append (df more : list row) :
  dim_retailer df `prefix_of` dim_retailer (df ++ more)
  ∧ dim_region df `prefix_of` dim_region (df ++ more)
  ∧ dim_state df `prefix_of` dim_state (df ++ more)
  ∧ dim_product df `prefix_of` dim_product (df ++ more)
  ∧ dim_sales_method df `prefix_of` dim_sales_method (df ++ more).
Proof.
  unfold dim_retailer, dim_region, dim_state, dim_product, dim_sales_method.
  split; [|split; [|split; [|split]]].
  - apply fmap_prefix. rewrite fmap_app. apply drop_duplicates_app.
  - apply index_plus_one_prefix. rewrite fmap_app. apply drop_duplicates_app.
  - apply index_plus_one_prefix.
    destruct (df_state_prep_app df more) as [k ->].
    rewrite fmap_app. apply drop_duplicates_app.
  - apply index_plus_one_prefix. rewrite fmap_app. apply drop_duplicates_app.
  - apply index_plus_one_prefix. rewrite fmap_app. apply drop_duplicates_app.
Qed.

(** * The loading task *)

Ltac run_load :=
  unfold mbind, Load.M_bind, mret, Load.M_ret, Load.logger_info,
    Load.logger_error, Load.logger, Load.raise, Load.lift, Load.check,
    Load.set_engine, Load.replace_raw;
  simpl; rewrite <- ?(assoc_L (++)).

(** The [try] block of [load_data], case by case. *)
Lemma load_try_block (w : Load.world) (s : Load.state) :
  ∃ l,
    Load.try_block w s
    = (match Load.create_engine w, Load.connect w, Load.read_excel w with
       | Some e, _, _ => inl e
       | None, Some e, _ => inl e
       | None, None, inl e => inl e
       | None, None, inr df =>
           match Load.to_sql w df Load.dtype_mapping with
           | Some e => inl e
           | None => inr ()
           end
       end,
       {| Load.log := Load.log s ++ l;
          Load.sales_raw :=
            match Load.create_engine w, Load.connect w, Load.read_excel w with
            | None, None, inr df =>
                match Load.to_sql w df Load.dtype_mapping with
                | None => Some df
                | Some _ => Load.sales_raw s
                end
            | _, _, _ => Load.sales_raw s
            end;
          Load.engine := match Load.create_engine w with
                         | None => Some Open
                         | Some _ => Load.engine s
                         end |})
    ∧ Forall (λ x, Load.levelname x = INFO) l
    ∧ match Load.create_engine w, Load.connect w, Load.read_excel w with
      | None, None, inr df =>
          match Load.to_sql w df Load.dtype_mapping with
          | None => last l = Some (Load.LogRecord INFO
                                     (Load.Successfully_loaded (nrows df)))
          | Some _ => True
          end
      | _, _, _ => True
      end.
Proof.
  destruct s as [lg raw en]. unfold Load.try_block.
  destruct (Load.create_engine w) as [e|];
    [|destruct (Load.connect w) as [e|]];
    [| |destruct (Load.read_excel w) as [e|df]];
    [| | |destruct (Load.to_sql w df Load.dtype_mapping) as [e|] eqn:Hsql];
    eexists; (split; [run_load; rewrite ?Hsql; run_load; reflexivity|]);
    (split; [by repeat constructor|done]).
Qed.

Lemma load_data_cases (w : Load.world) (s : Load.state) :
  let final := Load.load_data w s in
  final.1 = inr ()
  ∧ Load.sales_raw final.2
    = match Load.loaded w with
      | Some df => Some df
      | None => Load.sales_raw s
      end
  ∧ Load.engine final.2
    = (if Load.file_exists w
       then match Load.create_engine w with
            | None => Some Disposed
            | Some _ => None
            end
       else Load.engine s)
  ∧ (∃ l, Load.log final.2 = Load.log s ++ l)
  ∧ match Load.loaded w with
    | Some df =>
        last (Load.log final.2)
        = Some (Load.LogRecord INFO (Load.Successfully_loaded (nrows df)))
    | None => ∃ m, last (Load.log final.2) = Some (Load.LogRecord ERROR m)
    end.
Proof.
  unfold Load.load_data, Load.loaded.
  destruct (Load.file_exists w); simpl.
  - unfold Load.try_except_finally, Load.dispose_engine.
    destruct s as [lg raw en]. run_load.
    destruct (load_try_block w
                {| Load.log := lg; Load.sales_raw := raw; Load.engine := None |})
      as (l & -> & Hinfo & Hlast). simpl in *.
    destruct (Load.create_engine w) as [e|];
      [|destruct (Load.connect w) as [e|]];
      [| |destruct (Load.read_excel w) as [e|df]];
      [| | |destruct (Load.to_sql w df Load.dtype_mapping) as [e|]];
      simpl; try (destruct (is_SQLAlchemyError e); run_load);
      repeat split; try done; try (by eexists);
      try (eexists; apply last_snoc);
      try (eexists; rewrite (assoc_L (++)); apply last_snoc).
    rewrite last_app, Hlast. done.
  - destruct s as [lg raw en]. run_load. repeat split; try done.
    + by eexists.
    + eexists. apply last_snoc.
Qed.

(** X11 ([load_data] stores all or nothing): a call of [load_data] always
    returns.  The raw table becomes the frame read from the Excel file when
    the file exists, the engine is created and connects, the file is read
    and the write is accepted; in every other case the raw table is left as
    it was.  The engine is disposed of whenever it was created; without the
    file none is created. *)
Theorem load_data_stores (w : Load.world) (s : Load.state) :
  (Load.load_data w s).1 = inr ()
  ∧ Load.sales_raw (Load.load_data w s).2
    = match Load.loaded w with
      | Some df => Some df
      | None => Load.sales_raw s
      end
  ∧ Load.engine (Load.load_data w s).2
    = (if Load.file_exists w
       then match Load.create_engine w with
            | None => Some Disposed
            | Some _ => None
            end
       else Load.engine s).
Proof. destruct (load_data_cases w s) as (H1 & H2 & H3 & _). done. Qed.

(** X12 ([load_data] never fails silently): a call only appends to the log,
    and its last record tells the outcome: the success message with the
    number of rows of the frame when the raw table was replaced, a record of
    level ERROR in every other case. *)
Theorem load_data_reports (w : Load.world) (s : Load.state) :
  (∃ l, Load.log (Load.load_data w s).2 = Load.log s ++ l)
  ∧ match Load.loaded w with
    | Some df =>
        last (Load.log (Load.load_data w s).2)
        = Some (Load.LogRecord INFO (Load.Successfully_loaded (nrows df)))
    | None =>
        ∃ m, last (Load.log (Load.load_data w s).2)
             = Some (Load.LogRecord ERROR m)
    end.
Proof. destruct (load_data_cases w s) as (_ & _ & _ & H4 & H5). done. Qed.

(** * Further properties of the transformation task *)

(** ** The headers of the raw table *)





(** ** The order of the writes *)

Lemma writes_bind {A B} (m : M A) (f : A → M B) (x : A) (r : exn + B)
    (l l' : list log_record) (ws ws' : list (string * table))
    (eng : option (option engine_state)) :
  effect m (inr x) l ws eng → effect (f x) r l' ws' None →
  effect (m ≫= f) r (l ++ l') (ws ++ ws') eng.
Proof. intros Hm Hf. apply (effect_bind m f x l ws eng r l' ws' None Hm Hf). Qed.

Lemma load_table_accepted_effect (w : world) (t : table) (name : string)
    (dtypes : list (string * Sql.type)) :
  to_sql w name t dtypes = None →
  effect (load_table w t name dtypes) (inr ())
    [LogRecord INFO (Loading_table name (table_len t))] [(name, t)] None.
Proof.
  intros Hsql. split; [|by repeat constructor]. intros s.
  by rewrite load_table_accepted.
Qed.

Lemma load_table_refused_effect (w : world) (t : table) (name : string)
    (dtypes : list (string * Sql.type)) (e : exn) :
  to_sql w name t dtypes = Some e →
  effect (load_table w t name dtypes) (inl e)
    [LogRecord INFO (Loading_table name (table_len t))] [] None.
Proof.
  intros Hsql. split; [|by repeat constructor]. intros [lg pr en].
  unfold load_table. run_task. rewrite Hsql. by run_task.
Qed.

Ltac decide_write name :=
  match goal with
  | |- context [load_table ?w ?tb name ?d] =>
      destruct (to_sql w name tb d) eqn:?
  end.

(** The writes of [load]: the first [n] of the seven, all seven exactly when
    it returns, and then its last log record says so. *)
Lemma load_effect (w : world) (t : star_schema) :
  ∃ n r l ws,
    effect (load w t) r l ws None
    ∧ ws = take n (tables_of t) ∧ (n ≤ 7)%nat
    ∧ (r = inr () ↔ n = 7%nat)
    ∧ (r = inr () → last l = Some (LogRecord INFO All_tables_loaded)).
Proof.
  unfold load.
  decide_write "retailer"%string;
    [exists 0%nat|decide_write "region"%string];
    [|exists 1%nat|decide_write "state"%string];
    [| |exists 2%nat|decide_write "city"%string];
    [| | |exists 3%nat|decide_write "product"%string];
    [| | | |exists 4%nat|decide_write "sales_method"%string];
    [| | | | |exists 5%nat|decide_write "sales_transaction"%string];
    [| | | | | |exists 6%nat|exists 7%nat];
    eexists _, _, _;
    (split;
     [repeat first
        [ apply effect_bind_raise; eapply load_table_refused_effect; eassumption
        | eapply writes_bind; [eapply load_table_accepted_effect; eassumption|]
        | by apply effect_logger ]
     |]);
    (split; [reflexivity|]); (split; [lia|]); (split; [|done]);
    split; (done || lia).
Qed.

Lemma try_block_writes (w : world) :
  ∃ t n r l ws,
    effect (try_block w) r l ws (engine_after w)
    ∧ ws = take n (tables_of t)
    ∧ (n ≤ 7)%nat
    ∧ (r = inr () ↔ n = 7%nat)
    ∧ (r = inr () → last l = Some (LogRecord INFO All_tables_loaded)).
Proof.
  unfold try_block.
  destruct (read_raw_effect w) as ([e|df] & l0 & H0).
  { exists (transform []), 0%nat, (inl e), l0, [].
    split; [by apply effect_bind_raise|]. split; [done|]. split; [lia|].
    by split. }
  destruct (silent_clean w df) as ([e|df1] & l1 & H1).
  { exists (transform []), 0%nat. eexists _, _, _.
    split; [eapply (writes_bind _ _ df); [exact H0|]; by apply effect_bind_raise|].
    split; [done|]. split; [lia|]. by split. }
  destruct (normalize df1) as [e|t] eqn:Hnorm.
  { exists (transform []), 0%nat. eexists _, _, _.
    split; [eapply (writes_bind _ _ df); [exact H0|];
            eapply (writes_bind _ _ df1); [exact H1|];
            rewrite Hnorm; apply effect_bind_raise, effect_lift|].
    split; [done|]. split; [lia|]. by split. }
  destruct (load_effect w t) as (n & r & l & ws & Hload & -> & Hn & Hr & Hlast).
  exists t, n. eexists r, _, _.
  split; [eapply (writes_bind _ _ df); [exact H0|];
          eapply (writes_bind _ _ df1); [exact H1|];
          rewrite Hnorm; eapply (writes_bind _ _ t); [apply effect_lift|];
          eapply (writes_bind _ _ ()); [by apply effect_logger|]; exact Hload|].
  split; [done|]. split; [done|]. split; [done|].
  intros Hret. rewrite !last_app, (Hlast Hret). done.
Qed.

(** X8 (dimensions before the fact, no rollback): the tables a call of
    [transform_data] replaces are the first [n] of retailer, region, state,
    city, product, sales_method and sales_transaction, in that order, for
    some [n] that the world fixes: the fact table is replaced only after all
    six dimensions were, and a refused write leaves the tables replaced
    before it as they are.  The last log record is the message that all
    tables are loaded exactly when all seven were replaced. *)
Theorem writes_in_order (w : world) :
  ∃ t n,
    (n ≤ 7)%nat
    ∧ ∀ s,
        processed (transform_data w s).2
        = apply_writes (take n (tables_of t)) (processed s)
        ∧ (last (log (transform_data w s).2)
           = Some (LogRecord INFO All_tables_loaded) ↔ n = 7%nat).
Proof.
  destruct (try_block_writes w)
    as (t & n & r & l & ws & [Hbody _] & -> & Hn & Hr & Hlast).
  exists t, n. split; [done|]. intros s.
  rewrite transform_data_unfold, Hbody. simpl. split; [done|].
  destruct r as [e|[]].
  - rewrite last_snoc. split; [done|].
    intros Hn7. apply Hr in Hn7. done.
  - rewrite app_nil_r, last_app, (Hlast eq_refl). split; [|done].
    intros _. by apply Hr.
Qed.

(** ** A source that cannot be read *)

Lemma bind_raises {A B} (m : M A) (f : A → M B) (s s' : task_state) (e : exn) :
  m s = (inl e, s') → (m ≫= f) s = (inl e, s').
Proof. intros H. unfold mbind, M_bind. by rewrite H. Qed.

Lemma read_raw_fails (w : world) (s : task_state) (e : exn) :
  (create_engine w = Some e
   ∨ (create_engine w = None ∧ connect w = Some e)
   ∨ (create_engine w = None ∧ connect w = None ∧ read_sql_table w = inl e)) →
  ∃ s', read_raw w s = (inl e, s') ∧ processed s' = processed s.
Proof.
  destruct s as [lg pr en]. unfold read_raw.
  intros [He|[[He Hc]|(He & Hc & Hr)]]; eexists; run_task;
    rewrite ?He, ?Hc, ?Hr; run_task; split; reflexivity.
Qed.

(** X9 (an unreachable source costs nothing): when the engine cannot be
    created, or cannot connect, or the raw table cannot be read,
    [transform_data] leaves every stored table as it was, logs that
    exception as its last record, and returns. *)
Theorem source_unavailable_writes_nothing (w : world) (s : task_state) (e : exn) :
  (create_engine w = Some e
   ∨ (create_engine w = None ∧ connect w = Some e)
   ∨ (create_engine w = None ∧ connect w = None ∧ read_sql_table w = inl e)) →
  (transform_data w s).1 = inr ()
  ∧ processed (transform_data w s).2 = processed s
  ∧ last (log (transform_data w s).2) = Some (error_record e).
Proof.
  intros Hfail.
  destruct (read_raw_fails w (enter s) e Hfail) as (s' & Hraw & Hpr).
  rewrite transform_data_unfold. unfold try_block.
  rewrite (bind_raises _ _ _ _ _ Hraw). simpl.
  split; [done|]. split; [done|]. apply last_snoc.
Qed.

Lemma source_unavailable_writes_nothing_witness :
  let e := SQLAlchemyError "relation raw.sales_raw does not exist" in
  (create_engine unreadable_world = Some e
   ∨ (create_engine unreadable_world = None ∧ connect unreadable_world = Some e)
   ∨ (create_engine unreadable_world = None ∧ connect unreadable_world = None
      ∧ read_sql_table unreadable_world = inl e))
  ∧ (transform_data unreadable_world initial_state).1 = inr ()
  ∧ processed (transform_data unreadable_world initial_state).2
    = processed initial_state
  ∧ last (log (transform_data unreadable_world initial_state).2)
    = Some (error_record e).
Proof.
  assert (H : create_engine unreadable_world
              = Some (SQLAlchemyError "relation raw.sales_raw does not exist")
              ∨ (create_engine unreadable_world = None
                 ∧ connect unreadable_world
                   = Some (SQLAlchemyError "relation raw.sales_raw does not exist"))
              ∨ (create_engine unreadable_world = None
                 ∧ connect unreadable_world = None
                 ∧ read_sql_table unreadable_world
                   = inl (SQLAlchemyError "relation raw.sales_raw does not exist")))
    by (right; right; repeat split; reflexivity).
  split; [exact H|].
  exact (source_unavailable_writes_nothing unreadable_world initial_state _ H).
Defined.

(** ** A raw table without rows *)




(** * The two tasks together *)

(** The transformation over a stored raw table with the thirteen headers. *)
Lemma transform_stored (rows : list row) (tw : world) (s : task_state) :
  create_engine tw = None → connect tw = None →
  to_datetime tw (invoice_date <$> rows) = inr (invoice_date <$> rows) →
  (∀ name t dtypes, to_sql tw name t dtypes = None) →
  let final := transform_data (reading (Some (raw_frame rows)) tw) s in
  final.1 = inr ()
  ∧ processed final.2 = apply_writes (tables_of (transform rows)) (processed s)
  ∧ last (log final.2) = Some (LogRecord INFO All_tables_loaded).
Proof.
  intros Hengine Hconnect Hdates Hsql. simpl.
  assert (Hcol : column (normalize_columns (rename rename_map (raw_frame rows)))
                   "invoice_date" = Some (invoice_date <$> rows))
    by (vm_compute; reflexivity).
  assert (Hmiss : missing_columns
                    (normalize_columns (rename rename_map (raw_frame rows)))
                    required_columns = [])
    by (vm_compute; reflexivity).
  destruct (transform_data_success (reading (Some (raw_frame rows)) tw)
              (raw_frame rows) (invoice_date <$> rows) (invoice_date <$> rows) s
              Hengine Hconnect eq_refl Hcol Hdates Hmiss Hsql) as [Hpr Hlog].
  split; [by rewrite transform_data_unfold|].
  split; [|done]. rewrite Hpr, records_raw_frame. reflexivity.
Qed.



(** X14 (a failed load goes unnoticed downstream): when [load_data] stores
    nothing, because the file is missing or a step of it fails, while the
    raw table of an earlier run is in the store, the run of the two tasks
    still returns: the loading log ends with an error, the raw table is the
    earlier one, and the transformation rebuilds the seven tables from it
    and logs that all tables are loaded. *)
Theorem failed_load_transforms_stale_table (rows : list row) (lw : Load.world)
    (tw : world) (s : Load.state * task_state) :
  Load.loaded lw = None →
  Load.sales_raw s.1 = Some (raw_frame rows) →
  create_engine tw = None → connect tw = None →
  to_datetime tw (invoice_date <$> rows) = inr (invoice_date <$> rows) →
  (∀ name t dtypes, to_sql tw name t dtypes = None) →
  (load_then_transform lw tw s).1 = inr ()
  ∧ (∃ m, last (Load.log (load_then_transform lw tw s).2.1)
          = Some (Load.LogRecord ERROR m))
  ∧ Load.sales_raw (load_then_transform lw tw s).2.1 = Some (raw_frame rows)
  ∧ processed (load_then_transform lw tw s).2.2
    = apply_writes (tables_of (transform rows)) (processed s.2)
  ∧ last (log (load_then_transform lw tw s).2.2)
    = Some (LogRecord INFO All_tables_loaded).
Proof.
  intros Hloaded Hstored Hengine Hconnect Hdates Hsql.
  destruct (load_data_cases lw s.1) as (Hret & Hraw & _ & _ & Herr).
  rewrite Hloaded in Hraw, Herr. rewrite Hstored in Hraw.
  unfold load_then_transform.
  destruct (Load.load_data lw s.1) as [[e|[]] ls]; [done|]. simpl in Hraw, Herr.
  rewrite Hraw.
  destruct (transform_stored rows tw s.2 Hengine Hconnect Hdates Hsql)
    as (Hr & Hpr & Hlog).
  destruct (transform_data _ s.2) as [r ts]. simpl in *. by subst r.
Qed.

Lemma failed_load_transforms_stale_table_witness :
  let tw := fair_world empty_frame in
  let s := ({| Load.log := []; Load.sales_raw := Some (raw_frame example_df);
               Load.engine := None |}, initial_state) in
  Load.loaded no_file = None
  ∧ Load.sales_raw s.1 = Some (raw_frame example_df)
  ∧ (load_then_transform no_file tw s).1 = inr ()
  ∧ (∃ m, last (Load.log (load_then_transform no_file tw s).2.1)
          = Some (Load.LogRecord ERROR m))
  ∧ Load.sales_raw (load_then_transform no_file tw s).2.1
    = Some (raw_frame example_df)
  ∧ processed (load_then_transform no_file tw s).2.2
    = apply_writes (tables_of (transform example_df)) (processed s.2)
  ∧ last (log (load_then_transform no_file tw s).2.2)
    = Some (LogRecord INFO All_tables_loaded).
Proof.
  split; [reflexivity|]. split; [reflexivity|].
  exact (failed_load_transforms_stale_table example_df no_file
           (fair_world empty_frame)
           ({| Load.log := []; Load.sales_raw := Some (raw_frame example_df);
               Load.engine := None |}, initial_state)
           eq_refl eq_refl eq_refl eq_refl eq_refl (λ _ _ _, eq_refl)).
Defined.

(** X15 (the run of the two tasks always returns): whatever the two
    environments and the state, neither task lets an exception out, so the
    transformation always runs after the load and the run ends normally. *)
Theorem load_then_transform_returns (lw : Load.world) (tw : world)
    (s : Load.state * task_state) :
  (load_then_transform lw tw s).1 = inr ()
  ∧ (load_then_transform lw tw s).2.1 = (Load.load_data lw s.1).2
  ∧ (load_then_transform lw tw s).2.2
    = (transform_data
         (reading (Load.sales_raw (Load.load_data lw s.1).2) tw) s.2).2.
Proof.
  destruct (load_data_cases lw s.1) as (Hret & _).
  unfold load_then_transform.
  destruct (Load.load_data lw s.1) as [[e|[]] ls]; [done|]. simpl.
  pose proof (transform_data_unfold (reading (Load.sales_raw ls) tw) s.2) as H.
  destruct (transform_data _ s.2) as [r ts]. simpl in *.
  by injection H as -> _.
Qed.

(** * Keys *)

Lemma length_matches_NoDup {R K} `{!EqDecision K} (f : R → K) (right : list R)
    (k : K) :
  NoDup (f <$> right) →
  length (matches f k right) = if decide (k ∈ f <$> right) then 1%nat else 0%nat.
Proof.
  intros Hnd. destruct (decide (k ∈ f <$> right)) as [Hin|Hout].
  - apply list_elem_of_fmap in Hin as (x & -> & Hx).
    by rewrite matches_NoDup_key.
  - by rewrite matches_absent.
Qed.

Lemma decide_iff_nat (P Q : Prop) `{!Decision P, !Decision Q} (a b : nat) :
  (P ↔ Q) → (if decide P then a else b) = (if decide Q then a else b).
Proof. intros HPQ. destruct (decide P), (decide Q); tauto. Qed.

Lemma region_names (df : list row) (k : cell) :
  k ∈ rg_region_name <$> dim_region df ↔ k ∈ region <$> df.
Proof.
  rewrite !list_elem_of_fmap. split.
  - intros (g & -> & (r & Hr & ->)%elem_of_dim_region). by exists r.
  - intros (r & -> & Hr). destruct (region_matched df r Hr) as (g & Hg & Hn).
    by exists g.
Qed.

Lemma product_names (df : list row) (k : cell) :
  k ∈ pr_product_name <$> dim_product df ↔ k ∈ product <$> df.
Proof.
  rewrite !list_elem_of_fmap. split.
  - intros (p & -> & (r & Hr & -> & _)%elem_of_dim_product). by exists r.
  - intros (r & -> & Hr). destruct (product_matched df r Hr) as (p & Hp & Hn).
    by exists p.
Qed.

Lemma sales_method_names (df : list row) (k : cell) :
  k ∈ sm_method_name <$> dim_sales_method df ↔ k ∈ sales_method <$> df.
Proof.
  rewrite !list_elem_of_fmap. split.
  - intros (m & -> & (r & Hr & ->)%elem_of_dim_sales_method). by exists r.
  - intros (r & -> & Hr).
    destruct (sales_method_matched df r Hr) as (m & Hm & Hn). by exists m.
Qed.

(** X16 (looking a natural key up): in the region, product and sales-method
    dimensions a name has exactly one row when it occurs in the input and
    none otherwise; in the state dimension a state name with a region
    identifier, and in the city dimension a city name with a state
    identifier, have at most one row. *)
Theorem natural_key_lookup (df : list row) (k : cell) (parent : option Z) :
  length (matches rg_region_name k (dim_region df))
  = (if decide (k ∈ region <$> df) then 1%nat else 0%nat)
  ∧ length (matches pr_product_name k (dim_product df))
    = (if decide (k ∈ product <$> df) then 1%nat else 0%nat)
  ∧ length (matches sm_method_name k (dim_sales_method df))
    = (if decide (k ∈ sales_method <$> df) then 1%nat else 0%nat)
  ∧ (length (matches (λ x, (st_state_name x, st_region_id x)) (k, parent)
               (dim_state df)) ≤ 1)%nat
  ∧ (length (matches city_right_on (k, parent) (dim_city df)) ≤ 1)%nat.
Proof.
  destruct (natural_keys_unique df) as (Hr & Hs & Hc & Hp & Hm).
  rewrite !length_matches_NoDup by done.
  split; [apply decide_iff_nat, region_names|].
  split; [apply decide_iff_nat, product_names|].
  split; [apply decide_iff_nat, sales_method_names|].
  split; case_decide; lia.
Qed.

(** X17 (generated keys): for every input, the identifiers of the region,
    state, city, product and sales-method dimensions and the transaction
    identifiers of the fact table are 1, 2, ..., K in the order of the rows,
    K the number of rows of the table; for region, product and sales method
    K is the number of distinct names in the input, for state the number of
    distinct (state, region) pairs. *)
Theorem generated_keys (df : list row) :
  rg_region_id <$> dim_region df
  = seqZ 1 (Z.of_nat (length (remove_dups (region <$> df))))
  ∧ st_state_id <$> dim_state df
    = seqZ 1 (Z.of_nat (length (remove_dups ((λ r, (state r, region r)) <$> df))))
  ∧ ct_city_id <$> dim_city df = seqZ 1 (Z.of_nat (length (dim_city df)))
  ∧ pr_product_id <$> dim_product df
    = seqZ 1 (Z.of_nat (length (remove_dups (product <$> df))))
  ∧ sm_sales_method_id <$> dim_sales_method df
    = seqZ 1 (Z.of_nat (length (remove_dups (sales_method <$> df))))
  ∧ transaction_id <$> fact_table df = seqZ 1 (Z.of_nat (length (fact_table df))).
Proof.
  destruct (surrogate_keys_contiguous df) as (Hr & Hs & Hc & Hp & Hm).
  destruct (dimension_sizes df) as (Kr & Kp & Km).
  rewrite <- Kr, <- Kp, <- Km, <- dim_state_size.
  repeat split; try done.
  unfold fact_table. rewrite transaction_ids.
  unfold fact_table_of. by rewrite length_index_plus_one.
Qed.

(** With state names scoped to one region, every (city, state) pair of the
    input finds its state, once. *)
Lemma df_city_prep_pairs (df : list row) :
  state_scoped df →
  fst <$> df_city_prep df
  = drop_duplicates id ((λ r, (city r, state r)) <$> df).
Proof.
  intros Hscoped. unfold df_city_prep.
  apply merge_left_resolved, Forall_forall.
  intros [c st] Hcs. apply elem_of_drop_duplicates in Hcs.
  apply list_elem_of_fmap in Hcs as (r & [= -> ->] & Hr).
  exact (state_resolves df r Hscoped Hr).
Qed.

(** X18 (the size of the city dimension for scoped input): when every state
    name of the input belongs to one region, the city dimension has one row
    for each distinct (city, state) pair of the input, and its identifiers
    are 1, 2, ..., K for that number K. *)
Theorem scoped_city_keys (df : list row) :
  state_scoped df →
  ct_city_id <$> dim_city df
  = seqZ 1 (Z.of_nat (length (remove_dups ((λ r, (city r, state r)) <$> df)))).
Proof.
  intros Hscoped.
  destruct (surrogate_keys_contiguous df) as (_ & _ & -> & _). do 2 f_equal.
  unfold dim_city. rewrite length_index_plus_one.
  rewrite drop_duplicates_NoDup.
  - rewrite length_fmap, <- (length_fmap fst), df_city_prep_pairs by done.
    by rewrite length_drop_duplicates, list_fmap_id.
  - rewrite list_fmap_id. apply NoDup_fmap_2_strong.
    + intros [[c1 s1] o1] [[c2 s2] o2] H1 H2 [= -> Hid].
      unfold df_city_prep in H1, H2.
      apply elem_of_merge_left in H1 as [Hp1 H1].
      apply elem_of_merge_left in H2 as [Hp2 H2].
      apply elem_of_drop_duplicates in Hp1, Hp2.
      apply list_elem_of_fmap in Hp1 as (r1 & [= _ ->] & Hr1).
      apply list_elem_of_fmap in Hp2 as (r2 & [= _ ->] & Hr2).
      destruct (state_matched df r1 Hr1) as (y1 & _ & Hy1 & _ & Hn1 & _).
      destruct (state_matched df r2 Hr2) as (y2 & _ & Hy2 & _ & Hn2 & _).
      destruct o1 as [x1|];
        [|by destruct (matches_nonempty st_state_name (state r1) (dim_state df) y1)].
      destruct o2 as [x2|];
        [|by destruct (matches_nonempty st_state_name (state r2) (dim_state df) y2)].
      simpl in *. destruct H1 as [Hx1n Hx1], H2 as [Hx2n Hx2].
      injection Hid as Hid.
      assert (x1 = x2) as -> by by apply (dim_state_id_inj df).
      by rewrite <- Hx1n, <- Hx2n.
    + apply (NoDup_fmap_1 fst). rewrite df_city_prep_pairs by done.
      rewrite <- (list_fmap_id (drop_duplicates _ _)).
      apply NoDup_drop_duplicates.
Qed.

Lemma scoped_city_keys_witness :
  state_scoped example_df
  ∧ ct_city_id <$> dim_city example_df
    = seqZ 1 (Z.of_nat (length (remove_dups
                                  ((λ r, (city r, state r)) <$> example_df)))).
Proof.
  split; [exact state_scoped_example|].
  exact (scoped_city_keys example_df state_scoped_example).
Defined.

Lemma twin_states_distinct_ids_witness :
  let east := sale "Retailer A" "1" "East" "Springfield" "Alton" "Shoes" 50 10 "Online" in
  let west := sale "Retailer B" "2" "West" "Springfield" "Salem" "Hats" 20 5 "Outlet" in
  east ∈ twin_df ∧ west ∈ twin_df ∧ state east = state west
  ∧ region east ≠ region west
  ∧ ∃ x1 x2 g1 g2,
      x1 ∈ dim_state twin_df ∧ x2 ∈ dim_state twin_df
      ∧ g1 ∈ dim_region twin_df ∧ g2 ∈ dim_region twin_df
      ∧ rg_region_name g1 = region east ∧ rg_region_name g2 = region west
      ∧ st_state_name x1 = state east ∧ st_state_name x2 = state west
      ∧ st_region_id x1 = Some (rg_region_id g1)
      ∧ st_region_id x2 = Some (rg_region_id g2)
      ∧ st_state_id x1 ≠ st_state_id x2.
Proof.
  assert (H1 : sale "Retailer A" "1" "East" "Springfield" "Alton" "Shoes" 50 10
                 "Online" ∈ twin_df) by apply list_elem_of_here.
  assert (H2 : sale "Retailer B" "2" "West" "Springfield" "Salem" "Hats" 20 5
                 "Outlet" ∈ twin_df)
    by apply list_elem_of_further, list_elem_of_here.
  split; [exact H1|]. split; [exact H2|]. split; [reflexivity|].
  split; [discriminate|].
  exact (twin_states_distinct_ids twin_df _ _ H1 H2 eq_refl
           (λ H, eq_ind (Str "East")
                   (λ c, match c with Str "East" => True | _ => False end)
                   I _ H)).
Defined.
